(** * go-synapse: the HAProxy reconciler and the ZooKeeper watcher

    A shallow embedding of [synapse_haproxy.go] (the reconciler loop that
    assembles the backends of every service, compares them with the state
    it applied last and drives HAProxy through its configuration file, its
    reload command and its admin socket) and of the ZooKeeper watcher
    ([WatcherZookeeper.Watch], [watchRoot], [watchNode]), followed by the
    service of synapse ([ServiceReport], [Service.Init]) and the service of
    nerve ([Service.Init], [reportAndTellIfAtLeastOneReported],
    [CurrentWeight]).

    Go values are modelled as follows.
    - [string] is Rocq's [string] (a sequence of bytes); [+:+] is Go's [+].
    - [int] is [Z]; [strconv.Itoa] prints it in decimal.
    - a slice is a [list]; [append] adds at the end; [for i, x := range]
      is [range], a left fold that also passes the index.
    - [error] is [option error], [None] being [nil].
    - every call that leaves the process (file system, clock, reload
      command, admin socket, [encoding/json]) asks a [World] for its result;
      a function that performs such calls returns, next to its Go results,
      the list of [Event]s it caused, in order. *)

From Stdlib Require Import ZArith List String Ascii Bool Lia DecimalString.
From Stdlib Require Import Sorting.Permutation.
From Stdlib Require PrimFloat FloatOps SpecFloat Uint63.
From stdpp Require Import base list strings gmap.
Import ListNotations.

Open Scope string_scope.
Open Scope list_scope.
Open Scope Z_scope.

(** ** Go primitives *)

(** The Go [error] values that matter here carry a message only. *)
Definition error := string.

(** [strconv.Itoa]. *)
Definition Itoa (n : Z) : string := NilZero.string_of_int (Z.to_int n).

(** The one-byte string that Go writes as a newline escape. *)
Definition LF : string := String (ascii_of_nat 10) EmptyString.

(** [for i, x := range xs { s = f s i x }]. *)
Fixpoint range_from {A St : Type} (f : St -> nat -> A -> St) (i : nat)
    (xs : list A) (s : St) : St :=
  match xs with
  | [] => s
  | x :: xs' => range_from f (S i) xs' (f s i x)
  end.

Definition range {A St : Type} (f : St -> nat -> A -> St) (xs : list A)
    (s : St) : St :=
  range_from f 0%nat xs s.

(** ** Data model ([synapse_configuration.go], [synapse_haproxy.go]) *)

Record SynapseCommandHAProxyConfiguration := {
  Binary : string;
  Arguments_ : list string
}.

Record SynapseExtraSectionConfiguration := {
  Head : string;
  Content : list string
}.

Record SynapseHAProxyConfiguration := {
  ReloadCommand : SynapseCommandHAProxyConfiguration;
  ConfigFilePath : string;
  SocketFilePath : string;
  DoWrites : bool;
  DoReloads : bool;
  DoSocket : bool;
  Global_ : list string;
  Defaults : list string;
  ExtraSections : list SynapseExtraSectionConfiguration
}.

Record SynapseServiceServerConfiguration := {
  cName : string;
  cHost : string;
  cPort : Z
}.

(** Modelled from the spec: the element type of [GetDiscoveredHosts()] is not
    in the sources at hand; these are the fields [getAllBackends] reads from
    it (the spec's DiscoveryReport). *)
Record DiscoveredHost := {
  dName : string;
  dHost : string;
  dPort : Z;
  dMaintenance : bool;
  dWeight : Z;
  dHAProxyServerOptions : string
}.

(** Modelled from the spec: the declaration of [SynapseService] is not in the
    sources at hand; these are the fields [getAllBackends] reads.  [Discovery]
    is the service's discovery object, a reference the [World] resolves to
    the hosts it reports at the time of the call. *)
Record SynapseService := {
  svName : string;
  HAPPort : Z;
  HAPServerOptions : string;
  HAPListen : list string;
  DefaultServers : list SynapseServiceServerConfiguration;
  Discovery : nat
}.

(** Modelled from the spec: the declarations of [HAProxyBackendServer],
    [HAProxyBackend] and [HAProxyBackendSlice] are not in the sources at
    hand; these are the fields the functions below read and write. *)
Record HAProxyBackendServer := {
  sName : string;
  sHost : string;
  sPort : Z;
  sDisabled : bool;
  sWeight : Z;
  sHAProxyServerOptions : string
}.

Record HAProxyBackend := {
  bName : string;
  bPort : Z;
  bServerOptions : string;
  bListen : list string;
  bServers : list HAProxyBackendServer
}.

Definition HAProxyBackendSlice := list HAProxyBackend.

Record HAProxy := {
  Configuration : SynapseHAProxyConfiguration;
  Backends : HAProxyBackendSlice;
  Services : list SynapseService;
  StateFile : string;
  WriteInterval : Z
}.

(** Go's zero values, what an index expression would never return here
    because every index below is guarded by a length test. *)
Definition zeroServer : HAProxyBackendServer :=
  {| sName := ""; sHost := ""; sPort := 0; sDisabled := false; sWeight := 0;
     sHAProxyServerOptions := "" |}.

Definition zeroBackend : HAProxyBackend :=
  {| bName := ""; bPort := 0; bServerOptions := ""; bListen := [];
     bServers := [] |}.

Definition zeroCommand : SynapseCommandHAProxyConfiguration :=
  {| Binary := ""; Arguments_ := [] |}.

Definition zeroConfiguration : SynapseHAProxyConfiguration :=
  {| ReloadCommand := zeroCommand; ConfigFilePath := ""; SocketFilePath := "";
     DoWrites := false; DoReloads := false; DoSocket := false;
     Global_ := []; Defaults := []; ExtraSections := [] |}.

Definition zeroHAProxy : HAProxy :=
  {| Configuration := zeroConfiguration; Backends := []; Services := [];
     StateFile := ""; WriteInterval := 0 |}.

Definition set_Backends (h : HAProxy) (b : HAProxyBackendSlice) : HAProxy :=
  {| Configuration := Configuration h; Backends := b; Services := Services h;
     StateFile := StateFile h; WriteInterval := WriteInterval h |}.

(** [HAProxy.Initialize]. *)
Definition Initialize (h : HAProxy) (conf : SynapseHAProxyConfiguration)
    (services : list SynapseService) (stateFile : string)
    (writeInterval : Z) : HAProxy :=
  {| Configuration := conf;
     Backends := Backends h;
     Services := services;
     StateFile := stateFile;
     WriteInterval := if 0 <? writeInterval then writeInterval else 1000 |}.

(** ** The world outside the process *)

Inductive Event :=
  | EvStat (path : string)
  | EvReadFile (path : string)
  | EvWriteState (path data : string)
  | EvWriteConfig (path data : string)
  | EvReload (binary : string) (args : list string)
  | EvDial (path : string)
  | EvConnWrite (data : string)
  | EvConnRead
  | EvConnClose.

(** Times are instants in nanoseconds, durations are nanoseconds. *)
Definition Millisecond : Z := 1000000.

Record World := {
  (** [service.Discovery.GetDiscoveredHosts()] *)
  GetDiscoveredHosts : nat -> list DiscoveredHost;
  (** [os.Stat(path)]: the file's ModTime, or the error *)
  os_Stat : string -> Z + error;
  (** [time.Now()] *)
  time_Now : Z;
  (** [ioutil.ReadFile(path)] *)
  ioutil_ReadFile : string -> string + error;
  (** [json.Unmarshal(data, &v)]: the value left in [v], and the error *)
  json_Unmarshal : string -> HAProxyBackendSlice -> HAProxyBackendSlice * option error;
  (** [json.Marshal(v)] *)
  json_Marshal : HAProxyBackendSlice -> string + error;
  (** [ioutil.WriteFile(path, data, 0644)] *)
  ioutil_WriteFile : string -> string -> option error;
  (** [command.Run()] *)
  exec_Run : string -> list string -> option error;
  (** [net.Dial("unix", path)] *)
  net_Dial : string -> option error;
  (** [conn.Write] of the i-th command of the tick *)
  conn_Write : nat -> string -> option error;
  (** [conn.Read] after the i-th command: the bytes read, and the error *)
  conn_Read : nat -> string * option error
}.

(** ** The Differ: [isBackendsModified] *)

(** The three variables the function accumulates:
    [isModified], [hasToRestart], [socketCommands]. *)
Definition DiffAcc : Type := bool * bool * list string.

(** Body of the inner loop, [for i, server := range backend.Servers]. *)
Definition server_body (backend old : HAProxyBackend) (acc : DiffAcc)
    (i : nat) (server : HAProxyBackendServer) : DiffAcc :=
  let '(isModified, hasToRestart, socketCommands) := acc in
  let o := nth i (bServers old) zeroServer in
  if String.eqb (sName server) (sName o)
     && String.eqb (sHost server) (sHost o)
     && (sPort server =? sPort o)
  then
    if negb (Bool.eqb (sDisabled server) (sDisabled o)) then
      if sDisabled server then
        (true, hasToRestart,
         socketCommands ++
           ["disable server " +:+ bName backend +:+ "/" +:+ sName server])
      else
        (true, hasToRestart,
         socketCommands ++
           ["enable server " +:+ bName backend +:+ "/" +:+ sName server])
    else (isModified, hasToRestart, socketCommands)
  else (true, true, socketCommands).

(** Body of the outer loop, [for index, backend := range newBackends]. *)
Definition backend_body (h : HAProxy) (acc : DiffAcc) (index : nat)
    (backend : HAProxyBackend) : DiffAcc :=
  let old := nth index (Backends h) zeroBackend in
  if negb (length (bServers backend) =? length (bServers old))%nat then
    let '(_, _, socketCommands) := acc in (true, true, socketCommands)
  else range (server_body backend old) (bServers backend) acc.

Definition isBackendsModified (h : HAProxy) (newBackends : HAProxyBackendSlice)
    : bool * bool * list string * option error :=
  let isModified := false in
  let hasToRestart := false in
  let socketCommands : list string := [] in
  if negb (length newBackends =? length (Services h))%nat then
    let err := "[" +:+ Itoa (Z.of_nat (length newBackends))
               +:+ "] Backends to watch != ["
               +:+ Itoa (Z.of_nat (length (Services h))) +:+ "] Services" in
    (isModified, hasToRestart, socketCommands, Some err)
  else
    let '(isModified, hasToRestart, socketCommands) :=
      if (length newBackends =? length (Backends h))%nat then
        range (backend_body h) newBackends
          (isModified, hasToRestart, socketCommands)
      else (true, true, socketCommands) in
    (isModified, hasToRestart, socketCommands, None).

(** ** The Assembler: [getAllBackends] *)

(** Modelled from the spec: the [Less] methods behind the two [sort.Sort]
    calls are not in the sources at hand.  The spec orders servers by
    (name, host, port) and backends by name; strings compare bytewise, as
    Go's [<] does. *)
Definition server_less (a b : HAProxyBackendServer) : bool :=
  if negb (String.eqb (sName a) (sName b)) then String.ltb (sName a) (sName b)
  else if negb (String.eqb (sHost a) (sHost b)) then String.ltb (sHost a) (sHost b)
  else sPort a <? sPort b.

Definition backend_less (a b : HAProxyBackend) : bool :=
  String.ltb (bName a) (bName b).

(** [sort.Sort]: the slice is permuted into an order in which no element is
    [less] than one before it.  Insertion after the last element that is not
    greater is one such order (the one Go produces for short slices). *)
Fixpoint sort_insert {A : Type} (less : A -> A -> bool) (x : A) (l : list A)
    : list A :=
  match l with
  | [] => [x]
  | y :: l' => if less x y then x :: y :: l' else y :: sort_insert less x l'
  end.

Definition sort_Sort {A : Type} (less : A -> A -> bool) (l : list A) : list A :=
  fold_left (fun sorted x => sort_insert less x sorted) l [].

Definition default_server (server : SynapseServiceServerConfiguration)
    : HAProxyBackendServer :=
  {| sHost := cHost server;
     sPort := cPort server;
     sName := cName server;
     sDisabled := false;
     sWeight := 0;
     sHAProxyServerOptions := "" |}.

Definition discovered_server (server : DiscoveredHost) : HAProxyBackendServer :=
  {| sHost := dHost server;
     sPort := dPort server;
     sName := dName server;
     sDisabled := dMaintenance server;
     sWeight := dWeight server;
     sHAProxyServerOptions := dHAProxyServerOptions server |}.

(** Body of [for _, service := range h.Services], up to the [append]. *)
Definition service_backend (w : World) (service : SynapseService)
    : HAProxyBackend :=
  let servers := fold_left (fun servers server => servers ++ [default_server server])
                   (DefaultServers service) [] in
  let discoveredHosts := GetDiscoveredHosts w (Discovery service) in
  let servers := fold_left (fun servers server => servers ++ [discovered_server server])
                   discoveredHosts servers in
  {| bName := svName service;
     bPort := HAPPort service;
     bServerOptions := HAPServerOptions service;
     bListen := HAPListen service;
     bServers := sort_Sort server_less servers |}.

Definition getAllBackends (h : HAProxy) (w : World) : HAProxyBackendSlice :=
  let backends :=
    fold_left (fun backends service => backends ++ [service_backend w service])
      (Services h) [] in
  sort_Sort backend_less backends.

(** ** The State Store: [SaveState], [LoadState] *)

Definition SaveState (h : HAProxy) (w : World) : option error * list Event :=
  match json_Marshal w (Backends h) with
  | inr err => (Some err, [])
  | inl data =>
      match ioutil_WriteFile w (StateFile h) data with
      | Some err => (Some err, [EvWriteState (StateFile h) data])
      | None => (None, [EvWriteState (StateFile h) data])
      end
  end.

Definition LoadState (h : HAProxy) (w : World)
    : HAProxy * option error * list Event :=
  match os_Stat w (StateFile h) with
  | inl fileModTime =>
      let now := time_Now w in
      let ttl := 2000 in
      let expirationDate := fileModTime + ttl * Millisecond in
      if expirationDate <? now then
        (h, None, [EvStat (StateFile h)])
      else
        match ioutil_ReadFile w (StateFile h) with
        | inr err => (h, Some err, [EvStat (StateFile h); EvReadFile (StateFile h)])
        | inl file =>
            let '(backends, err) := json_Unmarshal w file (Backends h) in
            (set_Backends h backends, err,
             [EvStat (StateFile h); EvReadFile (StateFile h)])
        end
  | inr _ => (h, None, [EvStat (StateFile h)])
  end.

(** ** The Effector: [SaveConfiguration], [reloadHAProxyDaemon],
    [changeBackendsStateBySocket] *)

(** One [server] line of a backend. *)
Definition server_line (backend : HAProxyBackend) (data : string)
    (server : HAProxyBackendServer) : string :=
  let data := data +:+ "  server " in
  let data := data +:+ (sName server +:+ " ") in
  let data := data +:+ (sHost server +:+ ":") in
  let data := data +:+ (Itoa (sPort server) +:+ " ") in
  let data := data +:+ bServerOptions backend in
  let data :=
    if negb (String.eqb (sHAProxyServerOptions server) "")
    then data +:+ (" " +:+ sHAProxyServerOptions server) else data in
  let data := if sDisabled server then data +:+ " disabled" else data in
  data +:+ LF.

Definition indented_line (data line : string) : string :=
  data +:+ ("  " +:+ line +:+ LF).

Definition backend_section (data : string) (backend : HAProxyBackend) : string :=
  let data := data +:+ ("backend " +:+ bName backend +:+ LF) in
  let data := data +:+ ("  bind " +:+ Itoa (bPort backend) +:+ LF) in
  let data := fold_left indented_line (bListen backend) data in
  let data := fold_left (server_line backend) (bServers backend) data in
  data +:+ LF.

(** The text [SaveConfiguration] builds in [data]. *)
Definition config_data (h : HAProxy) : string :=
  let data := "#" +:+ LF in
  let data := data +:+ ("# HAProxy Configuration File Generated by GO-Synapse" +:+ LF) in
  let data := data +:+ ("# If you modify it, be aware that you modifications will be overriden soon" +:+ LF) in
  let data := data +:+ ("#" +:+ LF +:+ LF) in
  let data := data +:+ ("global" +:+ LF) in
  let data := fold_left indented_line (Global_ (Configuration h)) data in
  let data := data +:+ (LF +:+ "defaults" +:+ LF) in
  let data := fold_left indented_line (Defaults (Configuration h)) data in
  let data := data +:+ LF in
  fold_left backend_section (Backends h) data.

Definition SaveConfiguration (h : HAProxy) (w : World)
    : option error * list Event :=
  if DoWrites (Configuration h) then
    let data := config_data h in
    let path := ConfigFilePath (Configuration h) in
    match ioutil_WriteFile w path data with
    | Some err => (Some err, [EvWriteConfig path data])
    | None => (None, [EvWriteConfig path data])
    end
  else (None, []).

Definition reloadHAProxyDaemon (h : HAProxy) (w : World)
    : option error * list Event :=
  if DoReloads (Configuration h) then
    let path := Binary (ReloadCommand (Configuration h)) in
    let args := Arguments_ (ReloadCommand (Configuration h)) in
    match exec_Run w path args with
    | Some err => (Some err, [EvReload path args])
    | None => (None, [EvReload path args])
    end
  else (None, []).

(** [for _, command := range commands] of [changeBackendsStateBySocket],
    followed by the final [conn.Close()]; [i] counts the commands sent.
    In the third exit the value returned is the [err] that [conn.Read] has
    just been checked to have left [nil]. *)
Fixpoint socket_commands (w : World) (i : nat) (commands : list string)
    : option error * list Event :=
  match commands with
  | [] => (None, [EvConnClose])
  | command :: rest =>
      match conn_Write w i command with
      | Some err => (Some err, [EvConnWrite command; EvConnClose])
      | None =>
          let '(return_string, err) := conn_Read w i in
          match err with
          | Some _ => (err, [EvConnWrite command; EvConnRead; EvConnClose])
          | None =>
              if negb (String.eqb return_string LF) then
                (err, [EvConnWrite command; EvConnRead; EvConnClose])
              else
                let '(e, t) := socket_commands w (S i) rest in
                (e, EvConnWrite command :: EvConnRead :: t)
          end
      end
  end.

Definition changeBackendsStateBySocket (h : HAProxy) (w : World)
    (commands : list string) : option error * list Event :=
  if DoSocket (Configuration h) then
    let path := SocketFilePath (Configuration h) in
    match net_Dial w path with
    | Some err => (Some err, [EvDial path])
    | None =>
        let '(e, t) := socket_commands w 0%nat commands in (e, EvDial path :: t)
    end
  else (None, []).

(** ** The Reconciler Loop: [Run] *)

(** What [Run] does after the config file is saved: reload, or socket
    commands with a reload when they return an error. *)
Definition apply_change (h : HAProxy) (w : World) (hasToRestart : bool)
    (socketCommands : list string) : list Event :=
  if hasToRestart then snd (reloadHAProxyDaemon h w)
  else if DoReloads (Configuration h) && negb (DoSocket (Configuration h)) then
    snd (reloadHAProxyDaemon h w)
  else
    let '(err, t) := changeBackendsStateBySocket h w socketCommands in
    match err with
    | Some _ => t ++ snd (reloadHAProxyDaemon h w)
    | None => t
    end.

(** One pass of the loop body once [backends] has been assembled. *)
Definition tick_on (h : HAProxy) (w : World) (backends : HAProxyBackendSlice)
    : HAProxy * list Event :=
  let '(isModified, hasToRestart, socketCommands, err) :=
    isBackendsModified h backends in
  match err with
  | Some _ => (h, [])
  | None =>
      if isModified then
        let h := set_Backends h backends in
        let t_state :=
          if negb (String.eqb (StateFile h) "") then snd (SaveState h w) else [] in
        let '(err, t_conf) := SaveConfiguration h w in
        match err with
        | Some _ => (h, t_state ++ t_conf)
        | None =>
            (h, t_state ++ t_conf ++ apply_change h w hasToRestart socketCommands)
        end
      else (h, [])
  end.

(** One pass of the loop body. *)
Definition tick (h : HAProxy) (w : World) : HAProxy * list Event :=
  tick_on h w (getAllBackends h w).

(** The passes of the loop, one [World] per pass, until [stop] is ready. *)
Fixpoint loop (h : HAProxy) (ws : list World) : HAProxy * list Event :=
  match ws with
  | [] => (h, [])
  | w :: ws' =>
      let '(h1, t1) := tick h w in
      let '(h2, t2) := loop h1 ws' in
      (h2, t1 ++ t2)
  end.

(** [Run]: the state file is loaded in [w0], the first pass runs in [w1],
    and one more pass for each world of [ws]. *)
Definition Run (h : HAProxy) (w0 w1 : World) (ws : list World)
    : HAProxy * list Event :=
  let '(h0, _, t0) := LoadState h w0 in
  let '(h', t) := loop h0 (w1 :: ws) in
  (h', t0 ++ t).

(** ** The vocabulary of the specification *)

(** The three classes of the Differ's answer. *)
Inductive DiffClass :=
  | NoChange
  | EnableDisableOnly (commands : list string)
  | Structural.

Definition classify (r : bool * bool * list string * option error)
    : option DiffClass :=
  let '(isModified, hasToRestart, socketCommands, err) := r in
  match err with
  | Some _ => None
  | None =>
      if negb isModified then Some NoChange
      else if hasToRestart then Some Structural
      else Some (EnableDisableOnly socketCommands)
  end.

(** Two servers agree on (name, host, port). *)
Definition same_key (a b : HAProxyBackendServer) : Prop :=
  sName a = sName b /\ sHost a = sHost b /\ sPort a = sPort b.

(** Snapshots with the same number of backends and, backend by backend, the
    same servers in the same order up to their other attributes. *)
Definition flags_only (A B : HAProxyBackendSlice) : Prop :=
  Forall2 (fun a b => Forall2 same_key (bServers a) (bServers b)) A B.

(** The servers of the candidate [B] whose disabled flag is not the one of
    the server at the same place in [A], each with the name of its candidate
    backend, in the order of [B]. *)
Fixpoint differing_servers (name : string) (olds news : list HAProxyBackendServer)
    : list (string * HAProxyBackendServer) :=
  match olds, news with
  | o :: olds', n :: news' =>
      if Bool.eqb (sDisabled n) (sDisabled o)
      then differing_servers name olds' news'
      else (name, n) :: differing_servers name olds' news'
  | _, _ => []
  end.

Fixpoint differing (A B : HAProxyBackendSlice)
    : list (string * HAProxyBackendServer) :=
  match A, B with
  | a :: A', b :: B' =>
      differing_servers (bName b) (bServers a) (bServers b) ++ differing A' B'
  | _, _ => []
  end.

(** The admin-socket directive for one differing server. *)
Definition directive (d : string * HAProxyBackendServer) : string :=
  (if sDisabled (snd d) then "disable server " else "enable server ")
  +:+ fst d +:+ "/" +:+ sName (snd d).

Definition is_reload (e : Event) : bool :=
  match e with EvReload _ _ => true | _ => false end.

(** An event that is not a reload. *)
Definition quiet (e : Event) : Prop := is_reload e = false.

Definition is_state_write (e : Event) : bool :=
  match e with EvWriteState _ _ => true | _ => false end.

(** An event that is not a write of the state file. *)
Definition not_state (e : Event) : Prop := is_state_write e = false.

(** The socket pass succeeds: the dial, every write and every read succeed
    and every response is a lone newline. *)
Definition socket_pass_ok (h : HAProxy) (w : World) (commands : list string)
    : Prop :=
  net_Dial w (SocketFilePath (Configuration h)) = None /\
  forall i, (i < length commands)%nat ->
    conn_Write w i (nth i commands "") = None /\ conn_Read w i = (LF, None).

(** Servers, backends and snapshots that differ in [Weight] at most. *)
Definition server_upto_weight (a b : HAProxyBackendServer) : Prop :=
  sName a = sName b /\ sHost a = sHost b /\ sPort a = sPort b /\
  sDisabled a = sDisabled b /\
  sHAProxyServerOptions a = sHAProxyServerOptions b.

Definition backend_upto_weight (a b : HAProxyBackend) : Prop :=
  bName a = bName b /\ bPort a = bPort b /\
  bServerOptions a = bServerOptions b /\ bListen a = bListen b /\
  Forall2 server_upto_weight (bServers a) (bServers b).

Definition upto_weight (A B : HAProxyBackendSlice) : Prop :=
  Forall2 backend_upto_weight A B.

(** ** The ZooKeeper watcher: [WatcherZookeeper]

    [Watch] and the goroutines it starts are modelled as a transition
    system.  A step is either one case of the [select] of [Watch], or the
    return of its [watcherStopWaiter.Wait()], or one stretch of one
    goroutine, from one place where it waits for the outside to the next.
    The outside (the ZooKeeper connection, the scheduler, the event
    channels) is the [Label] of the step. *)

Module Zk.

(** [zk.EventType] and [zk.State] of the ZooKeeper client library. *)
Definition EventNodeCreated : Z := 1.
Definition EventNodeDeleted : Z := 2.
Definition EventNodeDataChanged : Z := 3.
Definition EventNodeChildrenChanged : Z := 4.
Definition EventSession : Z := -1.
Definition EventNotWatching : Z := -2.

Definition StateDisconnected : Z := 0.
Definition StateExpired : Z := -112.
Definition StateHasSession : Z := 101.

Record Event := {
  Type_ : Z;
  State : Z
}.

(** Modelled from the spec: [reportMap] ([NewNodes], [setNoNodes],
    [removeAll], [get], [addRawReport], [removeNode], [getValues]) is not in
    the sources at hand.  The watcher is written against this interface and
    the facts about it hold for every implementation. *)
Class ReportMap := {
  reportMap : Type;
  Report : Type;
  NewNodes : reportMap;
  setNoNodes : reportMap -> reportMap;
  removeAll : reportMap -> reportMap;
  get : string -> reportMap -> bool;
  addRawReport : string -> string -> reportMap -> reportMap;
  removeNode : string -> reportMap -> reportMap;
  getValues : reportMap -> list Report
}.

(** A goroutine started by [go w.watchRoot(...)] or [go w.watchNode(...)],
    at one of the places where it waits for the outside: for the scheduler
    to start it (it has not yet run [doneWaiter.Add(1)]), for a call to the
    ZooKeeper connection, or in a [select]. *)
Inductive Task :=
  | RootStart
  | RootExistsW
  | RootSelectExist
  | RootChildrenW
  | RootSelectEvents
  | NodeStart (node : string)
  | NodeGetW (node : string)
  | NodeSelectEvent (node : string).


(** What the outside gives a waiting goroutine: its start, the result of its
    call, the event of the watch channel it selects on, or the closed [stop]
    channel. *)
Inductive Answer :=
  | AGo
  | AExists (exist_ : bool)
  | AChildren (childs : list string)
  | AGet (content : string) (failed : bool)
  | AEvent (e : Event)
  | AStop.

Section Watcher.
Context {RM : ReportMap}.

(** One stretch of [watchRoot] or [watchNode]: the new reports, the
    goroutines that replace this one (none when it returns, several when
    [watchRoot] starts node watchers; they get the [stop] channel of this
    one), and what the stretch adds to the counter of the wait group.
    [closed] tells whether the goroutine's [stop] channel is closed. *)
Definition task_step (closed : bool) (path : string) (reports : reportMap)
    (t : Task) (a : Answer) : option (reportMap * list Task * Z) :=
  match t, a with
  | RootStart, AGo => Some (reports, [RootExistsW], 1)
  | RootExistsW, AExists exist_ =>
      if negb exist_ then Some (setNoNodes reports, [RootSelectExist], 0)
      else Some (reports, [RootChildrenW], 0)
  | RootSelectExist, AEvent _ => Some (reports, [RootChildrenW], 0)
  | RootSelectExist, AStop => if closed then Some (reports, [], -1) else None
  | RootChildrenW, AChildren childs =>
      if (length childs =? 0)%nat then
        Some (setNoNodes reports, [RootSelectEvents], 0)
      else
        Some (reports,
              RootSelectEvents ::
              map (fun child => NodeStart (path +:+ "/" +:+ child))
                  (List.filter (fun child => negb (get child reports)) childs),
              0)
  | RootSelectEvents, AEvent e =>
      if Type_ e =? Z.lor (Z.lor (Z.lor EventNodeChildrenChanged EventNodeCreated)
                             EventNodeDataChanged) EventNotWatching
      then Some (reports, [RootExistsW], 0)
      else if Type_ e =? EventNodeDeleted
      then Some (removeAll reports, [RootExistsW], 0)
      else Some (reports, [RootExistsW], 0)
  | RootSelectEvents, AStop => if closed then Some (reports, [], -1) else None
  | NodeStart node, AGo => Some (reports, [NodeGetW node], 1)
  | NodeGetW node, AGet content failed =>
      if failed then Some (reports, [], -1)
      else Some (addRawReport node content reports, [NodeSelectEvent node], 0)
  | NodeSelectEvent node, AEvent e =>
      if Type_ e =? Z.lor (Z.lor EventNodeDataChanged EventNodeCreated)
                      EventNotWatching
      then Some (reports, [NodeGetW node], 0)
      else if Type_ e =? EventNodeDeleted
      then Some (removeNode node reports, [], -1)
      else Some (reports, [NodeGetW node], 0)
  | NodeSelectEvent node, AStop => if closed then Some (reports, [], -1) else None
  | _, _ => None
  end.

(** Where [Watch] is: at its [select], or in [watcherStopWaiter.Wait()]
    on the way back to the [select] or (when [finish]) to its [return], or
    returned. *)
Inductive WatchPC :=
  | AtSelect
  | InWait (finish : bool)
  | Returned.

Record Watcher := {
  Path : string;
  reports : reportMap;
  (** the goroutines, each with the [stop] channel it was given *)
  tasks : list (nat * Task);
  (** the channel in the variable [watcherStop]; the channels made before
      it are closed *)
  watcherStop : nat;
  watcherStop_closed : bool;
  (** the counter of [watcherStopWaiter] *)
  watcherStopWaiter : Z;
  pc : WatchPC;
  (** the [ServiceReport]s sent on [events], oldest first *)
  sent : list (list Report);
  connection_closed : bool
}.

(** [NewWatcherZookeeper], at the entry of [Watch]. *)
Definition NewWatcherZookeeper (path : string) : Watcher :=
  {| Path := path; reports := NewNodes; tasks := [];
     watcherStop := 0%nat; watcherStop_closed := false;
     watcherStopWaiter := 0; pc := AtSelect; sent := [];
     connection_closed := false |}.

Inductive Label :=
  | LChanged
  | LConn (e : Event)
  | LStop
  | LWaitDone
  | LTask (i : nat) (a : Answer).

(** Is the channel [c] closed? *)
Definition stop_closed (w : Watcher) (c : nat) : bool :=
  (c <? watcherStop w)%nat || ((c =? watcherStop w)%nat && watcherStop_closed w).

Definition with_tasks (w : Watcher) (r : reportMap) (ts : list (nat * Task))
    (d : Z) : Watcher :=
  {| Path := Path w; reports := r; tasks := ts;
     watcherStop := watcherStop w;
     watcherStop_closed := watcherStop_closed w;
     watcherStopWaiter := watcherStopWaiter w + d;
     pc := pc w; sent := sent w;
     connection_closed := connection_closed w |}.

(** [close(watcherStop)], then into [watcherStopWaiter.Wait()]. *)
Definition close_and_wait (w : Watcher) (finish : bool) : Watcher :=
  {| Path := Path w; reports := reports w; tasks := tasks w;
     watcherStop := watcherStop w;
     watcherStop_closed := true;
     watcherStopWaiter := watcherStopWaiter w;
     pc := InWait finish; sent := sent w;
     connection_closed := connection_closed w |}.

(** One case of the [select] of [Watch]. *)
Definition Watch_select (w : Watcher) (l : Label) : option Watcher :=
  match l with
  | LChanged =>
      Some {| Path := Path w; reports := reports w; tasks := tasks w;
              watcherStop := watcherStop w;
              watcherStop_closed := watcherStop_closed w;
              watcherStopWaiter := watcherStopWaiter w;
              pc := pc w;
              sent := sent w ++ [getValues (reports w)];
              connection_closed := connection_closed w |}
  | LConn e =>
      if Type_ e =? Z.lor EventSession 0 then
        if State e =? StateHasSession then
          Some (with_tasks w (reports w)
                  (tasks w ++ [(watcherStop w, RootStart)]) 0)
        else if (State e =? StateExpired) || (State e =? StateDisconnected) then
          Some (close_and_wait w false)
        else Some w
      else Some w
  | LStop => Some (close_and_wait w true)
  | _ => None
  end.

(** One step of the watcher and its goroutines.  [Wait] returns when the
    counter of the wait group is zero; on the way back to the [select] a new
    [watcherStop] is made and the wait group is reset, on the way out the
    connection is closed. *)
Definition step (w : Watcher) (l : Label) : option Watcher :=
  match l with
  | LTask i a =>
      match tasks w !! i with
      | Some (c, t) =>
          match task_step (stop_closed w c) (Path w) (reports w) t a with
          | Some (r, ts, d) =>
              Some (with_tasks w r
                      (take i (tasks w) ++ map (pair c) ts ++ drop (S i) (tasks w))
                      d)
          | None => None
          end
      | None => None
      end
  | LWaitDone =>
      match pc w with
      | InWait finish =>
          if watcherStopWaiter w =? 0 then
            if finish then
              Some {| Path := Path w; reports := reports w; tasks := tasks w;
                      watcherStop := watcherStop w;
                      watcherStop_closed := true;
                      watcherStopWaiter := watcherStopWaiter w;
                      pc := Returned; sent := sent w;
                      connection_closed := true |}
            else
              Some {| Path := Path w; reports := reports w; tasks := tasks w;
                      watcherStop := S (watcherStop w);
                      watcherStop_closed := false;
                      watcherStopWaiter := 0;
                      pc := AtSelect; sent := sent w;
                      connection_closed := connection_closed w |}
          else None
      | _ => None
      end
  | _ =>
      match pc w with
      | AtSelect => Watch_select w l
      | _ => None
      end
  end.

Fixpoint run (w : Watcher) (ls : list Label) : option Watcher :=
  match ls with
  | [] => Some w
  | l :: ls' =>
      match step w l with
      | Some w' => run w' ls'
      | None => None
      end
  end.







End Watcher.

(** Modelled from the spec: a [reportMap] that keeps the raw content of
    every reported node in a map keyed by the node's name. *)
#[local] Instance mapReports : ReportMap := {|
  reportMap := gmap string string;
  Report := string;
  NewNodes := ∅;
  setNoNodes := fun _ => ∅;
  removeAll := fun _ => ∅;
  get := fun name m => bool_decide (is_Some (m !! name));
  addRawReport := fun name content m => <[name := content]> m;
  removeNode := fun name m => delete name m;
  getValues := fun m => (map_to_list m).*2
|}.

End Zk.

Definition nonempty {A : Type} (l : list A) : bool :=
  match l with [] => false | _ :: _ => true end.

(** The candidate with every [Weight] set to zero. *)
Definition erase_weight (s : HAProxyBackendServer) : HAProxyBackendServer :=
  {| sName := sName s; sHost := sHost s; sPort := sPort s;
     sDisabled := sDisabled s; sWeight := 0;
     sHAProxyServerOptions := sHAProxyServerOptions s |}.

Definition erase_weights (b : HAProxyBackend) : HAProxyBackend :=
  {| bName := bName b; bPort := bPort b; bServerOptions := bServerOptions b;
     bListen := bListen b; bServers := map erase_weight (bServers b) |}.

(** The discovery sources of the services of [h] report the same hosts in
    both worlds. *)
Definition same_discovery (h : HAProxy) (w1 w2 : World) : Prop :=
  forall s, In s (Services h) ->
    GetDiscoveredHosts w1 (Discovery s) = GetDiscoveredHosts w2 (Discovery s).

(** The config-file write of the pass of [h] in [w] fails. *)
Definition config_write_fails (h : HAProxy) (w : World) : Prop :=
  fst (SaveConfiguration (set_Backends h (getAllBackends h w)) w) <> None.

(** What the specification asks of a pass whose diff is Structural or
    EnableDisableOnly and whose config-file write fails: the applied snapshot
    stays what it was and no state file is written. *)
Definition failure_keeps_snapshot (h : HAProxy) (w : World) : Prop :=
  forall r cmds,
    isBackendsModified h (getAllBackends h w) = (true, r, cmds, None) ->
    config_write_fails h w ->
    Backends (fst (tick h w)) = Backends h /\
    Forall not_state (snd (tick h w)).

(** ** Worked configuration: one service [web], one discovered server [a] *)

Definition ex_conf : SynapseHAProxyConfiguration :=
  {| ReloadCommand := {| Binary := "/usr/sbin/service";
                         Arguments_ := ["service"; "haproxy"; "reload"] |};
     ConfigFilePath := "/etc/haproxy/haproxy.cfg";
     SocketFilePath := "/var/run/haproxy.sock";
     DoWrites := true; DoReloads := true; DoSocket := true;
     Global_ := ["daemon"]; Defaults := ["mode http"]; ExtraSections := [] |}.

Definition ex_service : SynapseService :=
  {| svName := "web"; HAPPort := 8080; HAPServerOptions := "check";
     HAPListen := []; DefaultServers := []; Discovery := 0%nat |}.

Definition ex_host (maintenance : bool) (weight : Z) : DiscoveredHost :=
  {| dName := "a"; dHost := "10.0.0.1"; dPort := 80;
     dMaintenance := maintenance; dWeight := weight;
     dHAProxyServerOptions := "" |}.

(** A world in which discovery reports [hosts], no state file exists, the
    admin socket answers every command with [reply], and writing the
    configuration file fails when [config_write_fails]. *)
Definition ex_world (hosts : list DiscoveredHost) (reply : string)
    (config_write_fails : bool) : World :=
  {| GetDiscoveredHosts := fun _ => hosts;
     os_Stat := fun _ => inr "no such file or directory";
     time_Now := 0;
     ioutil_ReadFile := fun _ => inr "no such file or directory";
     json_Unmarshal := fun _ v => (v, None);
     json_Marshal := fun _ => inl "[]";
     ioutil_WriteFile := fun path _ =>
       if config_write_fails && String.eqb path "/etc/haproxy/haproxy.cfg"
       then Some "no space left on device" else None;
     exec_Run := fun _ _ => None;
     net_Dial := fun _ => None;
     conn_Write := fun _ _ => None;
     conn_Read := fun _ => (reply, None) |}.

(** A world whose state file was modified at [mtime] and read at [now]. *)
Definition ex_world_state (mtime now : Z) (stored : HAProxyBackendSlice) : World :=
  {| GetDiscoveredHosts := fun _ => [];
     os_Stat := fun _ => inl mtime;
     time_Now := now;
     ioutil_ReadFile := fun _ => inl "[]";
     json_Unmarshal := fun _ _ => (stored, None);
     json_Marshal := fun _ => inl "[]";
     ioutil_WriteFile := fun _ _ => None;
     exec_Run := fun _ _ => None;
     net_Dial := fun _ => None;
     conn_Write := fun _ _ => None;
     conn_Read := fun _ => (LF, None) |}.

(** The reconciler as [Initialize] leaves it: nothing applied yet. *)
Definition ex_init : HAProxy :=
  Initialize zeroHAProxy ex_conf [ex_service] "/var/lib/synapse/state.json" 0.

(** The reconciler after the pass that applied server [a], enabled. *)
Definition ex_applied : HAProxy :=
  fst (tick ex_init (ex_world [ex_host false 10] LF false)).

(** A second discovered server, [b]. *)
Definition ex_host_b : DiscoveredHost :=
  {| dName := "b"; dHost := "10.0.0.2"; dPort := 80; dMaintenance := false;
     dWeight := 10; dHAProxyServerOptions := "backup" |}.

(** The answer of an admin socket that rejects a command. *)
Definition unknown_command : string := "Unknown command" +:+ LF.



(** ** Worked watcher: the path [/services/web] with children a, b, c *)

Definition ex_has_session : Zk.Event :=
  {| Zk.Type_ := Zk.EventSession; Zk.State := Zk.StateHasSession |}.

Definition ex_expired : Zk.Event :=
  {| Zk.Type_ := Zk.EventSession; Zk.State := Zk.StateExpired |}.

(** The session is acquired, the root watcher starts, the root exists and
    has three children, and each node watcher starts, reads the content of
    its child and reports it. *)
Definition ex_up : list Zk.Label :=
  [ Zk.LConn ex_has_session;
    Zk.LTask 0 Zk.AGo;
    Zk.LTask 0 (Zk.AExists true);
    Zk.LTask 0 (Zk.AChildren ["a"; "b"; "c"]);
    Zk.LTask 1 Zk.AGo;
    Zk.LTask 2 Zk.AGo;
    Zk.LTask 3 Zk.AGo;
    Zk.LTask 1 (Zk.AGet "report of a" false);
    Zk.LTask 2 (Zk.AGet "report of b" false);
    Zk.LTask 3 (Zk.AGet "report of c" false) ].

(** The four goroutines, each waiting in its [select], take the closed
    [stop] channel. *)
Definition ex_drain : list Zk.Label :=
  [ Zk.LTask 0 Zk.AStop; Zk.LTask 0 Zk.AStop;
    Zk.LTask 0 Zk.AStop; Zk.LTask 0 Zk.AStop ].

Definition ex_reports : gmap string string :=
  <["/services/web/c" := "report of c"]>
    (<["/services/web/b" := "report of b"]>
       (<["/services/web/a" := "report of a"]> ∅)).

(** The watcher after [ex_up]. *)
Definition ex_watching : @Zk.Watcher Zk.mapReports :=
  @Zk.Build_Watcher Zk.mapReports
    "/services/web"
    ex_reports
    [ (0%nat, Zk.RootSelectEvents);
      (0%nat, Zk.NodeSelectEvent "/services/web/a");
      (0%nat, Zk.NodeSelectEvent "/services/web/b");
      (0%nat, Zk.NodeSelectEvent "/services/web/c") ]
    0%nat false 4 Zk.AtSelect [] false.

(** The watcher after [ex_up], the loss of the session and [ex_drain]. *)
Definition ex_drained : @Zk.Watcher Zk.mapReports :=
  @Zk.Build_Watcher Zk.mapReports
    "/services/web" ex_reports [] 1%nat false 0 Zk.AtSelect [] false.

(** ** Further vocabulary: what the Differ compares *)

(** The test of [server_body] on a candidate server [n] and the applied
    server [o] at the same place. *)
Definition key_eqb (o n : HAProxyBackendServer) : bool :=
  String.eqb (sName n) (sName o) && String.eqb (sHost n) (sHost o)
  && (sPort n =? sPort o).

(** Two servers agree on everything the Differ reads. *)
Definition agree (a b : HAProxyBackendServer) : Prop :=
  same_key a b /\ sDisabled a = sDisabled b.

(** Snapshots with the same number of backends and, backend by backend, the
    same number of servers, agreeing place by place on (name, host, port,
    disabled). *)
Definition same_compared (A B : HAProxyBackendSlice) : Prop :=
  Forall2 (fun a b => Forall2 agree (bServers a) (bServers b)) A B.

(** What the inner loop adds to [isModified], [hasToRestart] and
    [socketCommands] for the servers [news] of the candidate backend [name]
    against the servers [olds] at the same places. *)
Fixpoint servers_diff (name : string) (olds news : list HAProxyBackendServer)
    : DiffAcc :=
  match olds, news with
  | o :: olds', n :: news' =>
      let '(m, r, c) := servers_diff name olds' news' in
      if key_eqb o n then
        if Bool.eqb (sDisabled n) (sDisabled o) then (m, r, c)
        else (true, r, directive (name, n) :: c)
      else (true, true, c)
  | _, _ => (false, false, [])
  end.

(** What the outer loop adds for the candidate backends [B] against the
    applied backends [A] at the same places. *)
Fixpoint backends_diff (A B : HAProxyBackendSlice) : DiffAcc :=
  match A, B with
  | a :: A', b :: B' =>
      let '(m, r, c) := backends_diff A' B' in
      if (length (bServers b) =? length (bServers a))%nat then
        let '(m1, r1, c1) := servers_diff (bName b) (bServers a) (bServers b) in
        (m1 || m, r1 || r, c1 ++ c)
      else (true, true, c)
  | _, _ => (false, false, [])
  end.

(** The servers of a snapshot, each with the name of its backend. *)
Definition all_servers (B : HAProxyBackendSlice)
    : list (string * HAProxyBackendServer) :=
  flat_map (fun b => map (pair (bName b)) (bServers b)) B.

(** The applied snapshot of the worked configuration with another listen
    port, other server options and other options and weight for its server:
    attributes the Differ does not read. *)
Definition ex_reconfigured : HAProxyBackendSlice :=
  [ {| bName := "web"; bPort := 9090; bServerOptions := "check inter 2s";
       bListen := ["mode tcp"];
       bServers := [ {| sName := "a"; sHost := "10.0.0.1"; sPort := 80;
                        sDisabled := false; sWeight := 50;
                        sHAProxyServerOptions := "backup" |} ] |} ].

(** ** Further vocabulary: what the Assembler builds *)

(** The servers of a service before they are sorted: its default servers,
    then the hosts its discovery reports. *)
Definition service_servers (w : World) (service : SynapseService)
    : list HAProxyBackendServer :=
  map default_server (DefaultServers service)
  ++ map discovered_server (GetDiscoveredHosts w (Discovery service)).

(** The backend [b] is the one of [service], up to the order of servers. *)
Definition backend_of (w : World) (b : HAProxyBackend)
    (service : SynapseService) : Prop :=
  bName b = svName service /\
  bPort b = HAPPort service /\
  bServerOptions b = HAPServerOptions service /\
  bListen b = HAPListen service /\
  Permutation (bServers b) (service_servers w service).

(** A second service, [db], with one default server and its own discovery. *)
Definition ex_service_db : SynapseService :=
  {| svName := "db"; HAPPort := 5432; HAPServerOptions := "check";
     HAPListen := ["mode tcp"];
     DefaultServers := [ {| cName := "primary"; cHost := "10.0.1.1";
                            cPort := 5432 |} ];
     Discovery := 1%nat |}.

(** The reconciler of the two services, nothing applied, no state file. *)
Definition ex_two : HAProxy :=
  Initialize zeroHAProxy ex_conf [ex_service; ex_service_db] "" 0.

(** ** Further vocabulary: the parts of the configuration text *)

(** The strings of a list, one after the other. *)
Definition join (l : list string) : string := fold_right String.append "" l.

(** The lines [SaveConfiguration] writes before the first backend. *)
Definition preamble (conf : SynapseHAProxyConfiguration) : string :=
  "#" +:+ LF
  +:+ "# HAProxy Configuration File Generated by GO-Synapse" +:+ LF
  +:+ "# If you modify it, be aware that you modifications will be overriden soon" +:+ LF
  +:+ "#" +:+ LF +:+ LF
  +:+ "global" +:+ LF
  +:+ join (map (fun line => "  " +:+ line +:+ LF) (Global_ conf))
  +:+ LF +:+ "defaults" +:+ LF
  +:+ join (map (fun line => "  " +:+ line +:+ LF) (Defaults conf))
  +:+ LF.

(** The line of one server of a backend. *)
Definition server_text (backend : HAProxyBackend) (server : HAProxyBackendServer)
    : string :=
  "  server " +:+ sName server +:+ " " +:+ sHost server +:+ ":"
  +:+ Itoa (sPort server) +:+ " " +:+ bServerOptions backend
  +:+ (if String.eqb (sHAProxyServerOptions server) "" then ""
       else " " +:+ sHAProxyServerOptions server)
  +:+ (if sDisabled server then " disabled" else "")
  +:+ LF.

(** The section of one backend. *)
Definition backend_text (backend : HAProxyBackend) : string :=
  "backend " +:+ bName backend +:+ LF
  +:+ "  bind " +:+ Itoa (bPort backend) +:+ LF
  +:+ join (map (fun line => "  " +:+ line +:+ LF) (bListen backend))
  +:+ join (map (server_text backend) (bServers backend))
  +:+ LF.

(** ** Further vocabulary: what a pass may do *)

Definition is_socket (e : Event) : bool :=
  match e with
  | EvDial _ | EvConnWrite _ | EvConnRead | EvConnClose => true
  | _ => false
  end.

(** The event is one the configuration of [h] allows a pass to cause: a write
    of the configured state file, a write of the configured config file under
    do_writes, a run of the configured reload command under do_reloads, the
    use of the configured admin socket under do_socket. *)
Definition gated (h : HAProxy) (e : Event) : Prop :=
  match e with
  | EvStat _ | EvReadFile _ => False
  | EvWriteState path _ => StateFile h <> "" /\ path = StateFile h
  | EvWriteConfig path _ =>
      DoWrites (Configuration h) = true /\
      path = ConfigFilePath (Configuration h)
  | EvReload binary args =>
      DoReloads (Configuration h) = true /\
      binary = Binary (ReloadCommand (Configuration h)) /\
      args = Arguments_ (ReloadCommand (Configuration h))
  | EvDial path =>
      DoSocket (Configuration h) = true /\
      path = SocketFilePath (Configuration h)
  | EvConnWrite _ | EvConnRead | EvConnClose =>
      DoSocket (Configuration h) = true
  end.

(** The event is one [LoadState] may cause. *)
Definition loads (h : HAProxy) (e : Event) : Prop :=
  e = EvStat (StateFile h) \/ e = EvReadFile (StateFile h).

(** Each command written and its response read. *)
Definition exchange (commands : list string) : list Event :=
  flat_map (fun c => [EvConnWrite c; EvConnRead]) commands.

(** The worked configuration with its three gates set as given. *)
Definition ex_conf_gates (writes reloads socket : bool)
    : SynapseHAProxyConfiguration :=
  {| ReloadCommand := ReloadCommand ex_conf;
     ConfigFilePath := ConfigFilePath ex_conf;
     SocketFilePath := SocketFilePath ex_conf;
     DoWrites := writes; DoReloads := reloads; DoSocket := socket;
     Global_ := Global_ ex_conf; Defaults := Defaults ex_conf;
     ExtraSections := [] |}.

(** The reconciler after the first pass of the worked configuration, with
    its gates set as given. *)
Definition ex_applied_gates (writes reloads socket : bool) : HAProxy :=
  {| Configuration := ex_conf_gates writes reloads socket;
     Backends := Backends ex_applied;
     Services := Services ex_applied;
     StateFile := StateFile ex_applied;
     WriteInterval := WriteInterval ex_applied |}.

(** The world of [ex_world] in which the admin socket cannot be dialled. *)
Definition ex_world_no_socket (hosts : list DiscoveredHost) : World :=
  {| GetDiscoveredHosts := fun _ => hosts;
     os_Stat := fun _ => inr "no such file or directory";
     time_Now := 0;
     ioutil_ReadFile := fun _ => inr "no such file or directory";
     json_Unmarshal := fun _ v => (v, None);
     json_Marshal := fun _ => inl "[]";
     ioutil_WriteFile := fun _ _ => None;
     exec_Run := fun _ _ => None;
     net_Dial := fun _ => Some "connection refused";
     conn_Write := fun _ _ => None;
     conn_Read := fun _ => (LF, None) |}.

(** The call returned an error. *)
Definition failed (e : option error) : bool :=
  match e with Some _ => true | None => false end.

(** The reload event of the configuration of [h]. *)
Definition reload_event (h : HAProxy) : Event :=
  EvReload (Binary (ReloadCommand (Configuration h)))
           (Arguments_ (ReloadCommand (Configuration h))).

(** A world whose state file is fresh and readable but does not decode: the
    decoder leaves [partial] in the snapshot and returns an error. *)
Definition ex_world_bad_state (partial : HAProxyBackendSlice) : World :=
  {| GetDiscoveredHosts := fun _ => [];
     os_Stat := fun _ => inl 0;
     time_Now := 1000;
     ioutil_ReadFile := fun _ => inl "[{";
     json_Unmarshal := fun _ _ => (partial, Some "unexpected end of JSON input");
     json_Marshal := fun _ => inl "[]";
     ioutil_WriteFile := fun _ _ => None;
     exec_Run := fun _ _ => None;
     net_Dial := fun _ => None;
     conn_Write := fun _ _ => None;
     conn_Read := fun _ => (LF, None) |}.

(** ** [WatcherZookeeper.GetServiceName] *)

(** [strings.Replace(s, "/", "_", -1)]: every byte "/" becomes "_". *)
Fixpoint replace_slashes (s : string) : string :=
  match s with
  | EmptyString => EmptyString
  | String c s' =>
      String (if Ascii.eqb c "/"%char then "_"%char else c) (replace_slashes s')
  end.

(** [GetServiceName]: the replaced path from its second byte on; [None] is
    the panic of the slice expression [[1:]] on the empty string. *)
Definition GetServiceName (path : string) : option string :=
  match replace_slashes path with
  | EmptyString => None
  | String _ name => Some name
  end.

Fixpoint has_slash (s : string) : bool :=
  match s with
  | EmptyString => false
  | String c s' => Ascii.eqb c "/"%char || has_slash s'
  end.


(** ** Services and their reports ([service.go])

    [ServiceReport] is what a watcher sends for a service; [Service.Init]
    prepares a service from its configuration. *)

Module Synapse.

(** Modelled from the spec: the declaration of [Report] is not in the
    sources at hand; [Available] is the one field read here, a [*bool]. *)
Record Report := {
  Available : option bool
}.

(** [report.Available == nil || *report.Available]. *)
Definition counts_as_available (report : Report) : bool :=
  match Available report with
  | None => true
  | Some b => b
  end.

(** [ServiceReport.HasActiveServers]: the loop returns at the first report
    that counts as available. *)
Fixpoint HasActiveServers (reports : list Report) : bool :=
  match reports with
  | [] => false
  | report :: rest =>
      if counts_as_available report then true else HasActiveServers rest
  end.

(** [ServiceReport.AvailableUnavailable]. *)
Definition AvailableUnavailable (reports : list Report) : Z * Z :=
  fold_left
    (fun '(available, unavailable) report =>
       if counts_as_available report then (available + 1, unavailable)
       else (available, unavailable + 1))
    reports (0, 0).

(** [ServiceReport.HasActiveServers] of the earlier version of the file,
    where [Available] is a [bool]. *)
Fixpoint HasActiveServers_bool (reports : list bool) : bool :=
  match reports with
  | [] => false
  | available :: rest => if available then true else HasActiveServers_bool rest
  end.

(** An error wrapped by [errs.WithEF]: the message and the cause. *)
Definition WrappedError : Type := string * error.

(** What [Service.Init] calls outside the file: [WatcherFromJson] (a watcher,
    named by a number, or an error), the watcher's [Init] and
    [GetServiceName], the router's [ParseRouterOptions] and
    [ParseServerOptions] (the typed options, or an error), and the constant
    [SORT_RANDOM]. *)
Record Externals := {
  WatcherFromJson : string -> nat + error;
  watcher_Init : nat -> option error;
  watcher_GetServiceName : nat -> string;
  ParseRouterOptions : string -> string + error;
  ParseServerOptions : string -> string + error;
  SORT_RANDOM : string
}.

Record Service := {
  Name : string;
  Watcher : string;
  RouterOptions : string;
  ServerOptions : string;
  ServerSort : string;
  id : Z;
  typedWatcher : option nat;
  typedRouterOptions : option string;
  typedServerOptions : option string
}.

Definition set_id (s : Service) (v : Z) : Service :=
  {| Name := Name s; Watcher := Watcher s; RouterOptions := RouterOptions s;
     ServerOptions := ServerOptions s; ServerSort := ServerSort s; id := v;
     typedWatcher := typedWatcher s;
     typedRouterOptions := typedRouterOptions s;
     typedServerOptions := typedServerOptions s |}.

Definition set_typedWatcher (s : Service) (v : nat) : Service :=
  {| Name := Name s; Watcher := Watcher s; RouterOptions := RouterOptions s;
     ServerOptions := ServerOptions s; ServerSort := ServerSort s; id := id s;
     typedWatcher := Some v;
     typedRouterOptions := typedRouterOptions s;
     typedServerOptions := typedServerOptions s |}.

Definition set_Name (s : Service) (v : string) : Service :=
  {| Name := v; Watcher := Watcher s; RouterOptions := RouterOptions s;
     ServerOptions := ServerOptions s; ServerSort := ServerSort s; id := id s;
     typedWatcher := typedWatcher s;
     typedRouterOptions := typedRouterOptions s;
     typedServerOptions := typedServerOptions s |}.

Definition set_typedRouterOptions (s : Service) (v : string) : Service :=
  {| Name := Name s; Watcher := Watcher s; RouterOptions := RouterOptions s;
     ServerOptions := ServerOptions s; ServerSort := ServerSort s; id := id s;
     typedWatcher := typedWatcher s;
     typedRouterOptions := Some v;
     typedServerOptions := typedServerOptions s |}.

Definition set_typedServerOptions (s : Service) (v : string) : Service :=
  {| Name := Name s; Watcher := Watcher s; RouterOptions := RouterOptions s;
     ServerOptions := ServerOptions s; ServerSort := ServerSort s; id := id s;
     typedWatcher := typedWatcher s;
     typedRouterOptions := typedRouterOptions s;
     typedServerOptions := Some v |}.

Definition set_ServerSort (s : Service) (v : string) : Service :=
  {| Name := Name s; Watcher := Watcher s; RouterOptions := RouterOptions s;
     ServerOptions := ServerOptions s; ServerSort := v; id := id s;
     typedWatcher := typedWatcher s;
     typedRouterOptions := typedRouterOptions s;
     typedServerOptions := typedServerOptions s |}.

(** [Service.Init] from its two option blocks on: both are guarded by the
    length of [RouterOptions]. *)
Definition Init_options (x : Externals) (s : Service)
    : Service * option WrappedError :=
  let router :=
    if (0 <? String.length (RouterOptions s))%nat then
      match ParseRouterOptions x (RouterOptions s) with
      | inr err => inr ("Failed to parse routerOptions", err)
      | inl typedRouterOptions => inl (set_typedRouterOptions s typedRouterOptions)
      end
    else inl s in
  match router with
  | inr e => (s, Some e)
  | inl s =>
      let server :=
        if (0 <? String.length (RouterOptions s))%nat then
          match ParseServerOptions x (ServerOptions s) with
          | inr err => inr ("Failed to parse serverOptions", err)
          | inl typedServerOptions => inl (set_typedServerOptions s typedServerOptions)
          end
        else inl s in
      match server with
      | inr e => (s, Some e)
      | inl s =>
          let s :=
            if String.eqb (ServerSort s) "" then set_ServerSort s (SORT_RANDOM x)
            else s in
          (s, None)
      end
  end.

(** [Service.Init]: the service, the counter [idCount] and the error after
    the call. *)
Definition Init (x : Externals) (idCount : Z) (s : Service)
    : Service * Z * option WrappedError :=
  let s := set_id s idCount in
  let idCount := idCount + 1 in
  match WatcherFromJson x (Watcher s) with
  | inr err => (s, idCount, Some ("Failed to read watcher", err))
  | inl watcher =>
      let s := set_typedWatcher s watcher in
      match watcher_Init x watcher with
      | Some err => (s, idCount, Some ("Failed to init watcher", err))
      | None =>
          let s :=
            if String.eqb (Name s) "" then
              set_Name s (watcher_GetServiceName x watcher)
            else s in
          let '(s, e) := Init_options x s in
          (s, idCount, e)
      end
  end.


End Synapse.

(** A service with server options and no router options, and externals that
    accept everything. *)
Definition ex_svc : Synapse.Service :=
  {| Synapse.Name := ""; Synapse.Watcher := "{}";
     Synapse.RouterOptions := ""; Synapse.ServerOptions := "check";
     Synapse.ServerSort := ""; Synapse.id := 0;
     Synapse.typedWatcher := None; Synapse.typedRouterOptions := None;
     Synapse.typedServerOptions := None |}.

Definition ex_externals : Synapse.Externals :=
  {| Synapse.WatcherFromJson := fun _ => inl 7%nat;
     Synapse.watcher_Init := fun _ => None;
     Synapse.watcher_GetServiceName := fun _ => "services_web";
     Synapse.ParseRouterOptions := fun raw => inl raw;
     Synapse.ParseServerOptions := fun raw => inl raw;
     Synapse.SORT_RANDOM := "random" |}.

(** Externals whose watchers cannot be read. *)
Definition ex_externals_failing : Synapse.Externals :=
  {| Synapse.WatcherFromJson := fun _ => inr "unknown watcher type";
     Synapse.watcher_Init := fun _ => None;
     Synapse.watcher_GetServiceName := fun _ => "services_web";
     Synapse.ParseRouterOptions := fun raw => inl raw;
     Synapse.ParseServerOptions := fun raw => inl raw;
     Synapse.SORT_RANDOM := "random" |}.

(** ** The nerve service ([nerve], [Service])

    [float64] is the kernel's binary64 [PrimFloat.float], with its own
    multiplication and division.  A [*error] is an [option (option error)]:
    [None] is the nil pointer and [Some None] points to a nil error.  The
    two maps are keyed by the checkers and reporters themselves; a [range]
    over a map visits its keys once each in an order Go does not fix, so the
    functions that range over one take the order as an argument. *)

Module Nerve.

Definition Checker := nat.
Definition Reporter := nat.
Definition WrappedError : Type := string * error.

(** The calls into the rest of nerve. *)
Record Externals := {
  CheckerFromJson : string -> Checker + error;
  NewCheckTcp : Checker;
  ReporterFromJson : string -> Reporter + error;
  NewReporterConsole : Reporter;
  (** [reporter.Report(toReport(status, s))] *)
  reporter_Report : Reporter -> option error -> option error
}.

Record Service := {
  Name : string;
  Port : Z;
  Host : string;
  Weight : Z;
  Checks : list string;
  Reporters : list string;
  ReportReplayInMilli : Z;
  SetServiceAsDownOnShutdown : option bool;
  EnableWarmupIntervalInMilli : Z;
  EnableWarmupMaxDurationInMilli : Z;
  DisableGracefullyDoneIntervalInMilli : Z;
  DisableMaxDurationInMilli : Z;
  DisableMinDurationInMilli : Z;
  disabled : option error;
  currentWeightIndex : Z;
  currentStatus : option (option error);
  typedCheckersWithStatus : gmap Checker (option (option error));
  typedReportersWithReported : gmap Reporter bool
}.

Definition set_currentWeightIndex (s : Service) (v : Z) : Service :=
  {| Name := Name s; Port := Port s; Host := Host s; Weight := Weight s;
     Checks := Checks s; Reporters := Reporters s;
     ReportReplayInMilli := ReportReplayInMilli s;
     SetServiceAsDownOnShutdown := SetServiceAsDownOnShutdown s;
     EnableWarmupIntervalInMilli := EnableWarmupIntervalInMilli s;
     EnableWarmupMaxDurationInMilli := EnableWarmupMaxDurationInMilli s;
     DisableGracefullyDoneIntervalInMilli :=
       DisableGracefullyDoneIntervalInMilli s;
     DisableMaxDurationInMilli := DisableMaxDurationInMilli s;
     DisableMinDurationInMilli := DisableMinDurationInMilli s;
     disabled := disabled s;
     currentWeightIndex := v;
     currentStatus := currentStatus s;
     typedCheckersWithStatus := typedCheckersWithStatus s;
     typedReportersWithReported := typedReportersWithReported s |}.

Definition set_typedCheckersWithStatus (s : Service)
    (v : gmap Checker (option (option error))) : Service :=
  {| Name := Name s; Port := Port s; Host := Host s; Weight := Weight s;
     Checks := Checks s; Reporters := Reporters s;
     ReportReplayInMilli := ReportReplayInMilli s;
     SetServiceAsDownOnShutdown := SetServiceAsDownOnShutdown s;
     EnableWarmupIntervalInMilli := EnableWarmupIntervalInMilli s;
     EnableWarmupMaxDurationInMilli := EnableWarmupMaxDurationInMilli s;
     DisableGracefullyDoneIntervalInMilli :=
       DisableGracefullyDoneIntervalInMilli s;
     DisableMaxDurationInMilli := DisableMaxDurationInMilli s;
     DisableMinDurationInMilli := DisableMinDurationInMilli s;
     disabled := disabled s;
     currentWeightIndex := currentWeightIndex s;
     currentStatus := currentStatus s;
     typedCheckersWithStatus := v;
     typedReportersWithReported := typedReportersWithReported s |}.

Definition set_typedReportersWithReported (s : Service)
    (v : gmap Reporter bool) : Service :=
  {| Name := Name s; Port := Port s; Host := Host s; Weight := Weight s;
     Checks := Checks s; Reporters := Reporters s;
     ReportReplayInMilli := ReportReplayInMilli s;
     SetServiceAsDownOnShutdown := SetServiceAsDownOnShutdown s;
     EnableWarmupIntervalInMilli := EnableWarmupIntervalInMilli s;
     EnableWarmupMaxDurationInMilli := EnableWarmupMaxDurationInMilli s;
     DisableGracefullyDoneIntervalInMilli :=
       DisableGracefullyDoneIntervalInMilli s;
     DisableMaxDurationInMilli := DisableMaxDurationInMilli s;
     DisableMinDurationInMilli := DisableMinDurationInMilli s;
     disabled := disabled s;
     currentWeightIndex := currentWeightIndex s;
     currentStatus := currentStatus s;
     typedCheckersWithStatus := typedCheckersWithStatus s;
     typedReportersWithReported := v |}.

(** *** The weight ramp *)

(** The conversion of an integer to [float64]; exact on the small values
    used here. *)
Definition float64 (z : Z) : PrimFloat.float :=
  PrimFloat.of_uint63 (Uint63.of_Z z).

(** The numbers of [weights], and [weights] itself. *)
Definition weight_steps : list Z :=
  [0; 1; 2; 3; 5; 8; 13; 21; 34; 55; 89; 144; 233].

Definition weights : list PrimFloat.float := map float64 weight_steps.

Definition postFullWeightMax : Z := 10.

(** [uint8(math.Ceil(f))]: the least integer not below [f], read off the
    sign, mantissa and exponent of [f], and then the conversion to [uint8],
    written with its wrap-around.  Zeros, infinities and NaN give 0 here;
    only the zeros among them are reached by [CurrentWeight]. *)
Definition uint8_Ceil (f : PrimFloat.float) : Z :=
  match FloatOps.Prim2SF f with
  | SpecFloat.S754_finite sign m e =>
      let v := if sign then Z.neg m else Z.pos m in
      (if 0 <=? e then v * 2 ^ e else - ((- v) / 2 ^ (- e))) mod 256
  | _ => 0
  end.

(** [Service.CurrentWeight]; [None] is the panic of an index below 0. *)
Definition CurrentWeight (s : Service) : option Z :=
  match currentStatus s with
  | Some None =>
      let index :=
        if Z.of_nat (length weights) - 1 <? currentWeightIndex s
        then Z.of_nat (length weights) - 1
        else currentWeightIndex s in
      if index <? 0 then None
      else
        match weights !! Z.to_nat index,
              weights !! Z.to_nat (Z.of_nat (length weights) - 1) with
        | Some step, Some full =>
            let res :=
              uint8_Ceil
                (PrimFloat.div (PrimFloat.mul step (float64 (Weight s))) full) in
            Some (if res =? 0 then (res + 1) mod 256 else res)
        | _, _ => None
        end
  | _ => Some 0
  end.

(** *** Reporting *)

(** The loop of [reportAndTellIfAtLeastOneReported] over the reporters in
    the order [order]: the map, [globalReported] and the calls of [Report]
    made so far, each with the reporter and the status sent. *)
Fixpoint report_range (x : Externals) (required : bool)
    (status : option error) (order : list Reporter)
    (reporters : gmap Reporter bool) (globalReported : Z)
    (calls : list (Reporter * option error))
    : gmap Reporter bool * Z * list (Reporter * option error) :=
  match order with
  | [] => (reporters, globalReported, calls)
  | reporter :: rest =>
      match reporters !! reporter with
      | None => report_range x required status rest reporters globalReported calls
      | Some reported =>
          if required || negb reported then
            let calls := calls ++ [(reporter, status)] in
            match reporter_Report x reporter status with
            | Some err =>
                report_range x required status rest
                  (<[reporter := false]> reporters) globalReported calls
            | None =>
                report_range x required status rest
                  (<[reporter := true]> reporters) (globalReported + 1) calls
            end
          else
            report_range x required status rest reporters globalReported calls
      end
  end.

(** [Service.reportAndTellIfAtLeastOneReported]: the service afterwards, the
    result and the calls of [Report] made. *)
Definition reportAndTellIfAtLeastOneReported (x : Externals)
    (order : list Reporter) (s : Service) (required : bool)
    : Service * bool * list (Reporter * option error) :=
  match currentStatus s with
  | None => (s, false, [])
  | Some status =>
      let status :=
        match disabled s with
        | Some d => Some d
        | None => status
        end in
      let '(reporters, globalReported, calls) :=
        report_range x required status order
          (typedReportersWithReported s) 0 [] in
      (set_typedReportersWithReported s reporters, 0 <? globalReported, calls)
  end.

(** *** Initialisation *)

(** The first part of [Service.Init]: every unset field gets its default,
    and the two maps are made. *)
Definition Init_defaults (s : Service) : Service :=
  let host := if String.eqb (Host s) "" then "127.0.0.1" else Host s in
  {| Name :=
       if String.eqb (Name s) "" then host +:+ ":" +:+ Itoa (Port s)
       else Name s;
     Port := Port s;
     Host := host;
     Weight := if Weight s =? 0 then 255 else Weight s;
     Checks := Checks s;
     Reporters := Reporters s;
     ReportReplayInMilli :=
       if ReportReplayInMilli s =? 0 then 1000 else ReportReplayInMilli s;
     SetServiceAsDownOnShutdown :=
       match SetServiceAsDownOnShutdown s with
       | None => Some true
       | Some val => Some val
       end;
     EnableWarmupIntervalInMilli :=
       if EnableWarmupIntervalInMilli s =? 0 then 1000
       else EnableWarmupIntervalInMilli s;
     EnableWarmupMaxDurationInMilli :=
       if EnableWarmupMaxDurationInMilli s =? 0 then 2 * 60 * 1000
       else EnableWarmupMaxDurationInMilli s;
     DisableGracefullyDoneIntervalInMilli :=
       if DisableGracefullyDoneIntervalInMilli s =? 0 then 1000
       else DisableGracefullyDoneIntervalInMilli s;
     DisableMaxDurationInMilli :=
       if DisableMaxDurationInMilli s =? 0 then 60 * 1000
       else DisableMaxDurationInMilli s;
     DisableMinDurationInMilli :=
       if DisableMinDurationInMilli s =? 0 then 3000
       else DisableMinDurationInMilli s;
     disabled := disabled s;
     currentWeightIndex := currentWeightIndex s;
     currentStatus := currentStatus s;
     typedCheckersWithStatus := ∅;
     typedReportersWithReported := ∅ |}.

(** The loop both maps are filled with:
    [for _, data := range datas { k, err := fromJson(data, s); if err != nil
    { return wrapped err }; m[k] = v }]. *)
Fixpoint load_range {V : Type} (fromJson : string -> nat + error)
    (message : string) (v : V) (datas : list string) (m : gmap nat V)
    : gmap nat V * option WrappedError :=
  match datas with
  | [] => (m, None)
  | data :: rest =>
      match fromJson data with
      | inr err => (m, Some (message, err))
      | inl k => load_range fromJson message v rest (<[k := v]> m)
      end
  end.

(** [Service.Init]. *)
Definition Init (x : Externals) (s : Service)
    : Service * option WrappedError :=
  let s := Init_defaults s in
  match load_range (CheckerFromJson x) "Failed to load check" None
          (Checks s) (typedCheckersWithStatus s) with
  | (checkers, Some e) => (set_typedCheckersWithStatus s checkers, Some e)
  | (checkers, None) =>
      let checkers :=
        if Nat.eqb (size checkers) 0 then <[NewCheckTcp x := None]> checkers
        else checkers in
      let s := set_typedCheckersWithStatus s checkers in
      match load_range (ReporterFromJson x) "Failed to load reporter" true
              (Reporters s) (typedReportersWithReported s) with
      | (reporters, Some e) => (set_typedReportersWithReported s reporters, Some e)
      | (reporters, None) =>
          let reporters :=
            if Nat.eqb (size reporters) 0 then
              <[NewReporterConsole x := true]> reporters
            else reporters in
          (set_typedReportersWithReported s reporters, None)
      end
  end.

(** The orders in which a [range] can visit the reporters: every key once. *)
Definition visits (order : list Reporter) (reporters : gmap Reporter bool)
    : Prop :=
  NoDup order /\ forall r, r ∈ order <-> is_Some (reporters !! r).

End Nerve.

(** A service that is up at the third step of the ramp, with two reporters
    of which the second has failed; and externals whose reporter 2 fails. *)
Definition ex_nerve : Nerve.Service :=
  {| Nerve.Name := "web"; Nerve.Port := 80; Nerve.Host := "10.0.0.1";
     Nerve.Weight := 100; Nerve.Checks := []; Nerve.Reporters := [];
     Nerve.ReportReplayInMilli := 1000;
     Nerve.SetServiceAsDownOnShutdown := Some true;
     Nerve.EnableWarmupIntervalInMilli := 1000;
     Nerve.EnableWarmupMaxDurationInMilli := 120000;
     Nerve.DisableGracefullyDoneIntervalInMilli := 1000;
     Nerve.DisableMaxDurationInMilli := 60000;
     Nerve.DisableMinDurationInMilli := 3000;
     Nerve.disabled := None;
     Nerve.currentWeightIndex := 4;
     Nerve.currentStatus := Some None;
     Nerve.typedCheckersWithStatus := {[ 1%nat := Some None ]};
     Nerve.typedReportersWithReported := {[ 1%nat := true; 2%nat := false ]} |}.

Definition ex_nerve_externals : Nerve.Externals :=
  {| Nerve.CheckerFromJson := fun _ => inl 1%nat;
     Nerve.NewCheckTcp := 0%nat;
     Nerve.ReporterFromJson := fun _ => inl 1%nat;
     Nerve.NewReporterConsole := 0%nat;
     Nerve.reporter_Report := fun r _ =>
       if Nat.eqb r 2 then Some "connection refused" else None |}.

(** The result of [CurrentWeight] for an available service at step [i] of
    the ramp with weight [w], and the integer it stands for: the share
    [weight_steps[i] / 233] of [w], rounded up, and 1 at least. *)
Definition ramp (i : nat) (w : Z) : Z :=
  match Nerve.weights !! i, Nerve.weights !! 12%nat with
  | Some step, Some full =>
      let res :=
        Nerve.uint8_Ceil
          (PrimFloat.div (PrimFloat.mul step (Nerve.float64 w)) full) in
      if res =? 0 then (res + 1) mod 256 else res
  | _, _ => 0
  end.

Definition share (i : nat) (w : Z) : Z :=
  Z.max 1 ((nth i Nerve.weight_steps 0 * w + 232) / 233).

Definition ramp_checked (i : nat) (w : Z) : bool :=
  (ramp i w =? share i w) && (1 <=? ramp i w) && (ramp i w <=? Z.max 1 w)
  && (ramp i w <=? ramp (Nat.min 12 (S i)) w)
  && (ramp 12 w =? Z.max 1 w).

(** A reporter is due in a pass when it is in the map and the pass is
    required or its last report failed; a report is delivered when [Report]
    returns no error. *)
Definition due (required : bool) (reporters : gmap Nerve.Reporter bool)
    (r : Nerve.Reporter) : bool :=
  match reporters !! r with
  | Some reported => required || negb reported
  | None => false
  end.

Definition delivered (x : Nerve.Externals) (status : option error)
    (r : Nerve.Reporter) : bool :=
  match Nerve.reporter_Report x r status with
  | None => true
  | Some _ => false
  end.

(** The data one of the two loaders of nerve accepts. *)
Definition decodes (fromJson : string -> nat + error) (data : string) : Prop :=
  exists k, fromJson data = inl k.

(** A service as its configuration file gives it: only the port is set. *)
Definition ex_nerve_conf : Nerve.Service :=
  {| Nerve.Name := ""; Nerve.Port := 8080; Nerve.Host := "";
     Nerve.Weight := 0; Nerve.Checks := []; Nerve.Reporters := ["{}"];
     Nerve.ReportReplayInMilli := 0;
     Nerve.SetServiceAsDownOnShutdown := None;
     Nerve.EnableWarmupIntervalInMilli := 0;
     Nerve.EnableWarmupMaxDurationInMilli := 0;
     Nerve.DisableGracefullyDoneIntervalInMilli := 0;
     Nerve.DisableMaxDurationInMilli := 0;
     Nerve.DisableMinDurationInMilli := 0;
     Nerve.disabled := None;
     Nerve.currentWeightIndex := 0;
     Nerve.currentStatus := None;
     Nerve.typedCheckersWithStatus := ∅;
     Nerve.typedReportersWithReported := ∅ |}.

(** No field that [Service.Init] gives a default is left at its zero
    value. *)
Definition all_set (s : Nerve.Service) : Prop :=
  Nerve.Host s <> "" /\ Nerve.Name s <> "" /\ Nerve.Weight s <> 0 /\
  Nerve.SetServiceAsDownOnShutdown s <> None /\
  Nerve.ReportReplayInMilli s <> 0 /\
  Nerve.EnableWarmupIntervalInMilli s <> 0 /\
  Nerve.EnableWarmupMaxDurationInMilli s <> 0 /\
  Nerve.DisableGracefullyDoneIntervalInMilli s <> 0 /\
  Nerve.DisableMaxDurationInMilli s <> 0 /\
  Nerve.DisableMinDurationInMilli s <> 0.

(** * Facts *)

Example ex_applied_backends :
  Backends ex_applied =
    [ {| bName := "web"; bPort := 8080; bServerOptions := "check"; bListen := [];
         bServers := [ {| sName := "a"; sHost := "10.0.0.1"; sPort := 80;
                          sDisabled := false; sWeight := 10;
                          sHAProxyServerOptions := "" |} ] |} ].
Proof. vm_compute. reflexivity. Qed.

(** The worked watcher is where the history [ex_up] leads, and the loss of
    the session followed by [ex_drain] leads from it to [ex_drained]. *)
Example ex_up_reaches_ex_watching :
  Zk.run (Zk.NewWatcherZookeeper (RM := Zk.mapReports) "/services/web") ex_up
  = Some ex_watching.
Proof. vm_compute. reflexivity. Qed.

Example ex_watching_drains :
  Zk.run ex_watching (Zk.LConn ex_expired :: ex_drain ++ [Zk.LWaitDone])
  = Some ex_drained.
Proof. vm_compute. reflexivity. Qed.

(** ** Sorting and the Assembler *)

Lemma sort_insert_length {A : Type} (less : A -> A -> bool) (x : A) (l : list A) :
  length (sort_insert less x l) = S (length l).
Proof.
  induction l as [|y l IH]; simpl; [reflexivity|].
  destruct (less x y); simpl; [reflexivity|].
  now rewrite IH.
Qed.

Lemma sort_insert_perm {A : Type} (less : A -> A -> bool) (x : A) (l : list A) :
  Permutation (x :: l) (sort_insert less x l).
Proof.
  induction l as [|y l IH]; simpl; [apply Permutation_refl|].
  destruct (less x y); [apply Permutation_refl|].
  eapply Permutation_trans; [apply perm_swap|].
  now apply perm_skip.
Qed.

Lemma sort_fold_perm {A : Type} (less : A -> A -> bool) (l acc : list A) :
  Permutation (acc ++ l)
    (fold_left (fun sorted x => sort_insert less x sorted) l acc).
Proof.
  revert acc; induction l as [|x l IH]; intros acc; simpl.
  - rewrite app_nil_r. apply Permutation_refl.
  - eapply Permutation_trans; [|apply IH].
    eapply Permutation_trans; [apply Permutation_sym, Permutation_middle|].
    change (x :: acc ++ l) with ((x :: acc) ++ l).
    apply Permutation_app_tail, sort_insert_perm.
Qed.

(** [sort.Sort] permutes the slice. *)
Lemma sort_Sort_perm {A : Type} (less : A -> A -> bool) (l : list A) :
  Permutation l (sort_Sort less l).
Proof. apply (sort_fold_perm less l []). Qed.

Lemma sort_Sort_length {A : Type} (less : A -> A -> bool) (l : list A) :
  length (sort_Sort less l) = length l.
Proof. symmetry. apply Permutation_length, sort_Sort_perm. Qed.

(** Appending in a loop is mapping. *)
Lemma fold_append_map {A B : Type} (f : A -> B) (l : list A) (acc : list B) :
  fold_left (fun out x => out ++ [f x]) l acc = acc ++ map f l.
Proof.
  revert acc; induction l as [|x l IH]; intros acc; simpl.
  - now rewrite app_nil_r.
  - rewrite IH, <- app_assoc. reflexivity.
Qed.

Lemma getAllBackends_unfold (h : HAProxy) (w : World) :
  getAllBackends h w =
    sort_Sort backend_less (map (service_backend w) (Services h)).
Proof. unfold getAllBackends. now rewrite fold_append_map. Qed.

Lemma getAllBackends_length (h : HAProxy) (w : World) :
  length (getAllBackends h w) = length (Services h).
Proof.
  rewrite getAllBackends_unfold, sort_Sort_length. apply length_map.
Qed.

(** The candidate does not depend on what was applied before. *)
Lemma getAllBackends_set_Backends (h : HAProxy) (w : World) (b : HAProxyBackendSlice) :
  getAllBackends (set_Backends h b) w = getAllBackends h w.
Proof. reflexivity. Qed.

Lemma service_backend_ext (w1 w2 : World) (s : SynapseService) :
  GetDiscoveredHosts w1 (Discovery s) = GetDiscoveredHosts w2 (Discovery s) ->
  service_backend w1 s = service_backend w2 s.
Proof. intros H. unfold service_backend. now rewrite H. Qed.

Lemma getAllBackends_ext (h1 h2 : HAProxy) (w1 w2 : World) :
  Services h1 = Services h2 ->
  (forall s, In s (Services h1) ->
     GetDiscoveredHosts w1 (Discovery s) = GetDiscoveredHosts w2 (Discovery s)) ->
  getAllBackends h1 w1 = getAllBackends h2 w2.
Proof.
  intros HS HD. rewrite !getAllBackends_unfold, <- HS. f_equal.
  apply map_ext_in. intros s Hs. now apply service_backend_ext, HD.
Qed.

(** ** The Differ *)

Lemma range_from_ext {A St : Type} (f g : St -> nat -> A -> St) (xs : list A) :
  (forall s i x, In x xs -> f s i x = g s i x) ->
  forall i s, range_from f i xs s = range_from g i xs s.
Proof.
  induction xs as [|x xs IH]; intros Hfg i s; simpl; [reflexivity|].
  rewrite Hfg by (left; reflexivity).
  apply IH. intros s' i' x' Hx. apply Hfg. now right.
Qed.

Lemma nonempty_app {A : Type} (l1 l2 : list A) :
  nonempty (l1 ++ l2) = nonempty l1 || nonempty l2.
Proof. destruct l1, l2; reflexivity. Qed.

(** The inner loop over servers that keep their place and their key: the
    commands are those of the servers whose flag differs, in order. *)
Lemma server_range_same_key (backend old : HAProxyBackend)
    (olds news : list HAProxyBackendServer) :
  Forall2 same_key olds news ->
  forall pre m r cmds,
    bServers old = pre ++ olds ->
    let D := differing_servers (bName backend) olds news in
    range_from (server_body backend old) (length pre) news (m, r, cmds) =
      (m || nonempty D, r, cmds ++ map directive D).
Proof.
  induction 1 as [|o n olds news Hk Hrest IH]; intros pre m r cmds Hold; simpl.
  - now rewrite orb_false_r, app_nil_r.
  - destruct Hk as (Hn & Hh & Hp).
    rewrite Hold, nth_middle.
    rewrite Hn, Hh, Hp, !String.eqb_refl, Z.eqb_refl. simpl.
    assert (Hold' : bServers old = (pre ++ [o]) ++ olds)
      by (now rewrite <- app_assoc).
    assert (Hlen : S (length pre) = length (pre ++ [o]))
      by (rewrite length_app; simpl; lia).
    rewrite Hlen.
    destruct (sDisabled n) eqn:Dn, (sDisabled o); simpl;
      rewrite (IH _ _ r _ Hold'); simpl;
      rewrite ?orb_true_r, <- ?app_assoc; simpl;
      unfold directive at 2; simpl; rewrite ?Dn; reflexivity.
Qed.

(** The outer loop over backends whose servers keep place and key. *)
Lemma backend_range_flags_only (h : HAProxy) (A B : HAProxyBackendSlice) :
  flags_only A B ->
  forall pre m r cmds,
    Backends h = pre ++ A ->
    range_from (backend_body h) (length pre) B (m, r, cmds) =
      (m || nonempty (differing A B), r, cmds ++ map directive (differing A B)).
Proof.
  induction 1 as [|a b A B Hs Hrest IH]; intros pre m r cmds Hold; simpl.
  - now rewrite orb_false_r, app_nil_r.
  - unfold backend_body at 2; rewrite Hold, nth_middle.
    rewrite <- (Forall2_length _ _ _ Hs), Nat.eqb_refl. simpl.
    unfold range.
    pose proof (server_range_same_key b a _ _ Hs [] m r cmds eq_refl) as E.
    simpl in E. rewrite E. clear E.
    assert (Hold' : Backends h = (pre ++ [a]) ++ A)
      by (now rewrite <- app_assoc).
    assert (Hlen : S (length pre) = length (pre ++ [a]))
      by (rewrite length_app; simpl; lia).
    rewrite Hlen, (IH _ _ r _ Hold').
    now rewrite nonempty_app, map_app, orb_assoc, app_assoc.
Qed.

(** The Differ on a candidate that differs from the applied snapshot in
    disabled flags at most. *)
Lemma isBackendsModified_flags_only (h : HAProxy) (B : HAProxyBackendSlice) :
  length B = length (Services h) ->
  flags_only (Backends h) B ->
  isBackendsModified h B =
    (nonempty (differing (Backends h) B), false,
     map directive (differing (Backends h) B), None).
Proof.
  intros Hlen Hf. unfold isBackendsModified.
  rewrite Hlen, Nat.eqb_refl. simpl.
  rewrite <- Hlen, <- (Forall2_length _ _ _ Hf), Nat.eqb_refl.
  unfold range.
  pose proof (backend_range_flags_only h _ _ Hf [] false false [] eq_refl) as E.
  simpl in E. now rewrite E.
Qed.

Lemma same_key_refl (l : list HAProxyBackendServer) : Forall2 same_key l l.
Proof. induction l; constructor; [repeat split|assumption]. Qed.

Lemma flags_only_refl (A : HAProxyBackendSlice) : flags_only A A.
Proof. induction A; constructor; [apply same_key_refl|assumption]. Qed.

Lemma differing_servers_refl (name : string) (l : list HAProxyBackendServer) :
  differing_servers name l l = [].
Proof. induction l as [|s l IH]; simpl; [|rewrite Bool.eqb_reflx]; auto. Qed.

Lemma differing_refl (A : HAProxyBackendSlice) : differing A A = [].
Proof.
  induction A as [|a A IH]; simpl; [reflexivity|].
  now rewrite differing_servers_refl, IH.
Qed.

(** The Differ on the applied snapshot itself. *)
Lemma isBackendsModified_same (h : HAProxy) :
  length (Backends h) = length (Services h) ->
  isBackendsModified h (Backends h) = (false, false, [], None).
Proof.
  intros Hlen.
  rewrite (isBackendsModified_flags_only h _ Hlen (flags_only_refl _)).
  now rewrite differing_refl.
Qed.

Lemma isBackendsModified_count (h : HAProxy) (B : HAProxyBackendSlice) :
  length B <> length (Services h) ->
  isBackendsModified h B =
    (false, false, [],
     Some ("[" +:+ Itoa (Z.of_nat (length B)) +:+ "] Backends to watch != ["
           +:+ Itoa (Z.of_nat (length (Services h))) +:+ "] Services")).
Proof.
  intros Hne. unfold isBackendsModified.
  destruct (Nat.eqb_spec (length B) (length (Services h))) as [E|_];
    [contradiction|reflexivity].
Qed.

Lemma isBackendsModified_no_error (h : HAProxy) (B : HAProxyBackendSlice) :
  length B = length (Services h) -> snd (isBackendsModified h B) = None.
Proof.
  intros Hlen. unfold isBackendsModified.
  rewrite Hlen, Nat.eqb_refl. simpl.
  destruct (if (_ =? _)%nat then _ else _) as [[m r] c]. reflexivity.
Qed.

(** ** The Effector *)

Lemma SaveState_quiet (h : HAProxy) (w : World) :
  Forall quiet (snd (SaveState h w)).
Proof.
  unfold SaveState. destruct (json_Marshal w _); [|constructor].
  destruct (ioutil_WriteFile w _ _); repeat constructor.
Qed.

Lemma SaveConfiguration_quiet (h : HAProxy) (w : World) :
  Forall quiet (snd (SaveConfiguration h w)).
Proof.
  unfold SaveConfiguration. destruct (DoWrites _); [|constructor].
  destruct (ioutil_WriteFile w _ _); repeat constructor.
Qed.

Lemma socket_commands_quiet (w : World) (commands : list string) :
  forall i, Forall quiet (snd (socket_commands w i commands)).
Proof.
  induction commands as [|c cs IH]; intros i; simpl; [repeat constructor|].
  destruct (conn_Write w i c); [repeat constructor|].
  destruct (conn_Read w i) as [s [e|]]; [repeat constructor|].
  destruct (negb (String.eqb s LF)); [repeat constructor|].
  specialize (IH (S i)). destruct (socket_commands w (S i) cs) as [e t].
  repeat constructor. exact IH.
Qed.

Lemma changeBackendsStateBySocket_quiet (h : HAProxy) (w : World)
    (commands : list string) :
  Forall quiet (snd (changeBackendsStateBySocket h w commands)).
Proof.
  unfold changeBackendsStateBySocket. destruct (DoSocket _); [|constructor].
  destruct (net_Dial w _); [repeat constructor|].
  pose proof (socket_commands_quiet w commands 0%nat) as H.
  destruct (socket_commands w 0%nat commands) as [e t].
  constructor; [reflexivity|exact H].
Qed.

(** A pass in which every write and read succeeds and every response is a
    lone newline sends every command and returns [nil]. *)
Lemma socket_commands_ok (w : World) (commands : list string) :
  forall i,
    (forall j, (j < length commands)%nat ->
       conn_Write w (i + j) (nth j commands "") = None /\
       conn_Read w (i + j) = (LF, None)) ->
    socket_commands w i commands =
      (None,
       flat_map (fun c => [EvConnWrite c; EvConnRead]) commands ++ [EvConnClose]).
Proof.
  induction commands as [|c cs IH]; intros i H; simpl; [reflexivity|].
  destruct (H 0%nat) as [Hw Hr]; [simpl; lia|].
  rewrite Nat.add_0_r in Hw, Hr. simpl in Hw. rewrite Hw, Hr. simpl.
  rewrite IH; [reflexivity|].
  intros j Hj. specialize (H (S j)).
  rewrite Nat.add_succ_r in H. simpl in H. apply H. lia.
Qed.

(** Whatever the responses are, a pass whose writes and reads succeed
    returns [nil]. *)
Lemma socket_commands_nil (w : World) (commands : list string) :
  forall i,
    (forall j c, conn_Write w j c = None) ->
    (forall j, snd (conn_Read w j) = None) ->
    fst (socket_commands w i commands) = None.
Proof.
  induction commands as [|c cs IH]; intros i Hw Hr; simpl; [reflexivity|].
  rewrite Hw. specialize (Hr i) as Hri.
  destruct (conn_Read w i) as [s e]. simpl in Hri. subst e.
  destruct (negb (String.eqb s LF)); [reflexivity|].
  specialize (IH (S i) Hw Hr).
  destruct (socket_commands w (S i) cs) as [e t]. exact IH.
Qed.

Lemma SaveConfiguration_no_state (h : HAProxy) (w : World) :
  Forall not_state (snd (SaveConfiguration h w)).
Proof.
  unfold SaveConfiguration. destruct (DoWrites _); [|constructor].
  destruct (ioutil_WriteFile w _ _); repeat constructor.
Qed.

Lemma reloadHAProxyDaemon_no_state (h : HAProxy) (w : World) :
  Forall not_state (snd (reloadHAProxyDaemon h w)).
Proof.
  unfold reloadHAProxyDaemon. destruct (DoReloads _); [|constructor].
  destruct (exec_Run w _ _); repeat constructor.
Qed.

Lemma socket_commands_no_state (w : World) (commands : list string) :
  forall i, Forall not_state (snd (socket_commands w i commands)).
Proof.
  induction commands as [|c cs IH]; intros i; simpl; [repeat constructor|].
  destruct (conn_Write w i c); [repeat constructor|].
  destruct (conn_Read w i) as [s [e|]]; [repeat constructor|].
  destruct (negb (String.eqb s LF)); [repeat constructor|].
  specialize (IH (S i)). destruct (socket_commands w (S i) cs) as [e t].
  repeat constructor. exact IH.
Qed.

Lemma apply_change_no_state (h : HAProxy) (w : World) (r : bool)
    (cmds : list string) :
  Forall not_state (apply_change h w r cmds).
Proof.
  unfold apply_change.
  destruct r; [apply reloadHAProxyDaemon_no_state|].
  destruct (_ && _); [apply reloadHAProxyDaemon_no_state|].
  assert (Hs : Forall not_state (snd (changeBackendsStateBySocket h w cmds))).
  { unfold changeBackendsStateBySocket. destruct (DoSocket _); [|constructor].
    destruct (net_Dial w _); [repeat constructor|].
    pose proof (socket_commands_no_state w cmds 0%nat) as H.
    destruct (socket_commands w 0%nat cmds) as [e t].
    constructor; [reflexivity|exact H]. }
  destruct (changeBackendsStateBySocket h w cmds) as [[e|] t]; simpl in Hs;
    [|exact Hs].
  rewrite Forall_app. split; [exact Hs|apply reloadHAProxyDaemon_no_state].
Qed.

Lemma tick_on_not_modified (h : HAProxy) (w : World) (B : HAProxyBackendSlice)
    (r : bool) (cmds : list string) :
  isBackendsModified h B = (false, r, cmds, None) -> tick_on h w B = (h, []).
Proof. intros H. unfold tick_on. now rewrite H. Qed.

Lemma tick_on_error (h : HAProxy) (w : World) (B : HAProxyBackendSlice)
    (m r : bool) (cmds : list string) (e : error) :
  isBackendsModified h B = (m, r, cmds, Some e) -> tick_on h w B = (h, []).
Proof. intros H. unfold tick_on. now rewrite H. Qed.

(** What a pass does once the Differ has reported a modification. *)
Lemma tick_on_modified (h : HAProxy) (w : World) (B : HAProxyBackendSlice)
    (r : bool) (cmds : list string) :
  isBackendsModified h B = (true, r, cmds, None) ->
  let h' := set_Backends h B in
  tick_on h w B =
    (h',
     (if negb (String.eqb (StateFile h) "") then snd (SaveState h' w) else [])
     ++ snd (SaveConfiguration h' w)
     ++ match fst (SaveConfiguration h' w) with
        | Some _ => []
        | None => apply_change h' w r cmds
        end).
Proof.
  intros H h'. unfold tick_on. rewrite H. fold h'.
  destruct (SaveConfiguration h' w) as [[e|] t]; simpl;
    [now rewrite app_nil_r | reflexivity].
Qed.

Lemma tick_on_Services (h : HAProxy) (w : World) (B : HAProxyBackendSlice) :
  Services (fst (tick_on h w B)) = Services h.
Proof.
  unfold tick_on.
  destruct (isBackendsModified h B) as [[[m r] c] [e|]]; [reflexivity|].
  destruct m; [|reflexivity].
  destruct (SaveConfiguration _ w) as [[e|] t]; reflexivity.
Qed.

(** After a pass, the Differ finds nothing modified in the candidate that
    the same discovery outputs give. *)
Lemma tick_twice (h : HAProxy) (w w' : World) :
  same_discovery h w w' ->
  let h1 := fst (tick h w) in
  exists r cmds,
    isBackendsModified h1 (getAllBackends h1 w') = (false, r, cmds, None).
Proof.
  intros Hd h1.
  assert (HS : Services h1 = Services h) by apply tick_on_Services.
  assert (Hc : getAllBackends h1 w' = getAllBackends h w).
  { apply getAllBackends_ext; [exact HS|].
    intros s Hs. symmetry. apply Hd. now rewrite <- HS. }
  rewrite Hc.
  pose proof (getAllBackends_length h w) as Hlen.
  pose proof (isBackendsModified_no_error h _ Hlen) as Herr.
  subst h1. unfold tick, tick_on in *.
  destruct (isBackendsModified h (getAllBackends h w)) as [[[m r] c] e] eqn:E.
  simpl in Herr. subst e.
  destruct m.
  - exists false, [].
    destruct (SaveConfiguration _ w) as [[e|] t]; simpl;
      apply (isBackendsModified_same (set_Backends h (getAllBackends h w)) Hlen).
  - exists r, c. exact E.
Qed.

(** After a pass, further passes under the same discovery outputs perform
    no I/O and leave the reconciler as that pass left it. *)
Lemma loop_same_discovery (ws : list World) :
  forall (h : HAProxy) (w : World),
    Forall (same_discovery h w) ws ->
    loop (fst (tick h w)) ws = (fst (tick h w), []).
Proof.
  induction ws as [|w' ws IH]; intros h w Hall; simpl; [reflexivity|].
  inversion Hall as [|? ? Hd Hrest]; subst.
  destruct (tick_twice h w w' Hd) as (r & cmds & E).
  unfold tick at 1. rewrite (tick_on_not_modified _ w' _ r cmds E).
  rewrite (IH h w Hrest). reflexivity.
Qed.

(** ** The scenarios of the specification on the worked configuration *)

(** First pass: nothing applied yet, the candidate is Structural; the state
    file and the config file are written and HAProxy is reloaded. *)
Example scenario_first_tick :
  let w := ex_world [ex_host false 10] LF false in
  classify (isBackendsModified ex_init (getAllBackends ex_init w))
    = Some Structural /\
  map is_reload (snd (tick ex_init w)) = [false; false; true].
Proof. vm_compute. split; reflexivity. Qed.

(** Server [a] goes to maintenance: one socket command, no reload. *)
Example scenario_socket_disable :
  let w := ex_world [ex_host true 10] LF false in
  classify (isBackendsModified ex_applied (getAllBackends ex_applied w))
    = Some (EnableDisableOnly ["disable server web/a"]) /\
  List.filter (fun e => negb (is_state_write e))
    (snd (tick ex_applied w))
  = [ EvWriteConfig "/etc/haproxy/haproxy.cfg"
        (config_data (set_Backends ex_applied (getAllBackends ex_applied w)));
      EvDial "/var/run/haproxy.sock";
      EvConnWrite "disable server web/a"; EvConnRead; EvConnClose ].
Proof. vm_compute. split; reflexivity. Qed.

(** Server [b] appears: Structural, both servers in the order of their
    names, and a reload. *)
Example scenario_structural_add :
  let w := ex_world [ex_host_b; ex_host false 10] LF false in
  classify (isBackendsModified ex_applied (getAllBackends ex_applied w))
    = Some Structural /\
  map (fun b => map sName (bServers b)) (getAllBackends ex_applied w)
    = [["a"; "b"]] /\
  map is_reload (snd (tick ex_applied w)) = [false; false; true].
Proof. vm_compute. repeat split; reflexivity. Qed.

(** ** The claims about the reconciler *)

(** C10.  Every candidate the Assembler produces has exactly one backend per
    configured service, so the Differ never answers it with its
    count-mismatch error and a pass of the loop never takes that branch. *)
Theorem candidate_count_is_service_count (h : HAProxy) (w : World) :
  length (getAllBackends h w) = length (Services h) /\
  snd (isBackendsModified h (getAllBackends h w)) = None.
Proof.
  split; [apply getAllBackends_length|].
  apply isBackendsModified_no_error, getAllBackends_length.
Qed.

(** C7.  When the candidate's backend count differs from the number of
    configured services, the Differ returns an error that reports nothing
    modified, and the pass leaves the reconciler as it was and performs no
    I/O at all: no state file, no config file, no reload, no socket. *)
Theorem count_mismatch_skips_tick (h : HAProxy) (w : World)
    (backends : HAProxyBackendSlice) :
  length backends <> length (Services h) ->
  (exists err, isBackendsModified h backends = (false, false, [], Some err)) /\
  tick_on h w backends = (h, []).
Proof.
  intros Hne. pose proof (isBackendsModified_count h backends Hne) as E.
  split; [eexists; exact E|].
  eapply tick_on_error, E.
Qed.

Lemma count_mismatch_skips_tick_witness :
  (exists err, isBackendsModified ex_applied [] = (false, false, [], Some err)) /\
  tick_on ex_applied (ex_world [] LF false) [] = (ex_applied, []).
Proof.
  apply (count_mismatch_skips_tick ex_applied (ex_world [] LF false) []).
  vm_compute. discriminate.
Defined.

(** C8.  When the candidate equals the applied snapshot, the Differ answers
    NoChange and the pass performs no I/O and leaves the reconciler as it
    was; and the pass that follows any pass, the discovery sources reporting
    the same hosts in both, is such a pass. *)
Theorem unchanged_candidate_is_noop (h : HAProxy) (w : World) :
  (getAllBackends h w = Backends h ->
   classify (isBackendsModified h (getAllBackends h w)) = Some NoChange /\
   tick h w = (h, [])) /\
  (forall w', same_discovery h w w' ->
     let h1 := fst (tick h w) in
     classify (isBackendsModified h1 (getAllBackends h1 w')) = Some NoChange /\
     tick h1 w' = (h1, [])).
Proof.
  split.
  - intros Heq.
    assert (Hlen : length (Backends h) = length (Services h))
      by (rewrite <- Heq; apply getAllBackends_length).
    unfold tick. rewrite Heq, (isBackendsModified_same h Hlen).
    split; [reflexivity|].
    eapply tick_on_not_modified, isBackendsModified_same, Hlen.
  - intros w' Hd h1.
    destruct (tick_twice h w w' Hd) as (r & cmds & E). fold h1 in E.
    unfold tick. rewrite E. split; [reflexivity|].
    eapply tick_on_not_modified, E.
Qed.

Lemma unchanged_candidate_is_noop_witness :
  (classify (isBackendsModified ex_applied
               (getAllBackends ex_applied (ex_world [ex_host false 10] LF false)))
     = Some NoChange /\
   tick ex_applied (ex_world [ex_host false 10] LF false) = (ex_applied, [])) /\
  tick (fst (tick ex_init (ex_world [ex_host false 10] LF false)))
       (ex_world [ex_host false 10] unknown_command true)
  = (fst (tick ex_init (ex_world [ex_host false 10] LF false)), []).
Proof.
  destruct (unchanged_candidate_is_noop ex_applied
              (ex_world [ex_host false 10] LF false)) as [H1 _].
  destruct (unchanged_candidate_is_noop ex_init
              (ex_world [ex_host false 10] LF false)) as [_ H2].
  split.
  - apply H1. vm_compute. reflexivity.
  - apply (H2 (ex_world [ex_host false 10] unknown_command true)).
    intros s _. reflexivity.
Defined.

(** C4.  When the candidate has the backends and servers of the applied
    snapshot in the same order with the same (name, host, port), and some
    disabled flags differ, the Differ answers EnableDisableOnly with one
    command per differing server, in order, "disable server b/s" for a
    server the candidate disables and "enable server b/s" for one it enables;
    and with do_socket set and a socket pass that succeeds, the pass performs
    no reload.  The candidate has one backend per service, as every candidate
    of the Assembler has. *)
Theorem flags_only_is_enable_disable_only (h : HAProxy) (w : World)
    (B : HAProxyBackendSlice) :
  length B = length (Services h) ->
  flags_only (Backends h) B ->
  differing (Backends h) B <> [] ->
  let commands := map directive (differing (Backends h) B) in
  classify (isBackendsModified h B) = Some (EnableDisableOnly commands) /\
  (DoSocket (Configuration h) = true ->
   socket_pass_ok h w commands ->
   Forall quiet (snd (tick_on h w B))).
Proof.
  intros Hlen Hf Hd commands.
  pose proof (isBackendsModified_flags_only h B Hlen Hf) as E.
  assert (Hne : nonempty (differing (Backends h) B) = true)
    by (destruct (differing (Backends h) B); [contradiction|reflexivity]).
  rewrite Hne in E. fold commands in E.
  split; [now rewrite E|].
  intros Hsock [Hdial Hcmds].
  rewrite (tick_on_modified h w B false commands E). simpl.
  rewrite !Forall_app. split; [|split].
  - destruct (negb _); [apply SaveState_quiet|constructor].
  - apply SaveConfiguration_quiet.
  - destruct (fst (SaveConfiguration _ w)); [constructor|].
    unfold apply_change, changeBackendsStateBySocket. simpl.
    rewrite Hsock, andb_false_r. simpl in Hdial. rewrite Hdial.
    rewrite (socket_commands_ok w commands 0%nat Hcmds).
    constructor; [reflexivity|].
    rewrite Forall_app. split; [|repeat constructor].
    clear. induction commands; simpl; repeat constructor; assumption.
Qed.

Lemma flags_only_is_enable_disable_only_witness :
  classify (isBackendsModified ex_applied
              (getAllBackends ex_applied (ex_world [ex_host true 10] LF false)))
    = Some (EnableDisableOnly ["disable server web/a"]) /\
  Forall quiet
    (snd (tick_on ex_applied (ex_world [ex_host true 10] LF false)
            (getAllBackends ex_applied (ex_world [ex_host true 10] LF false)))).
Proof.
  destruct (flags_only_is_enable_disable_only ex_applied
              (ex_world [ex_host true 10] LF false)
              (getAllBackends ex_applied (ex_world [ex_host true 10] LF false)))
    as [Hc Hq].
  - reflexivity.
  - vm_compute. repeat constructor.
  - vm_compute. discriminate.
  - split; [exact Hc|]. apply Hq; [reflexivity|].
    split; [reflexivity|]. intros i Hi. split; reflexivity.
Defined.

(** C1.  The pass of the worked configuration in which server [a] goes to
    maintenance and the admin socket answers "Unknown command" instead of a
    lone newline: the Differ answers EnableDisableOnly, the response is not
    a lone newline, yet [changeBackendsStateBySocket] returns [nil] and the
    pass ends with closing the socket, without any reload. *)
Theorem bad_socket_reply_is_not_reloaded :
  let w := ex_world [ex_host true 10] unknown_command false in
  let candidate := getAllBackends ex_applied w in
  classify (isBackendsModified ex_applied candidate)
    = Some (EnableDisableOnly ["disable server web/a"]) /\
  DoSocket (Configuration ex_applied) = true /\
  DoReloads (Configuration ex_applied) = true /\
  conn_Read w 0%nat = (unknown_command, None) /\
  unknown_command <> LF /\
  fst (changeBackendsStateBySocket (set_Backends ex_applied candidate) w
         ["disable server web/a"]) = None /\
  List.filter is_reload (snd (tick ex_applied w)) = [] /\
  last (snd (tick ex_applied w)) = Some EvConnClose.
Proof.
  vm_compute. repeat split; try reflexivity. discriminate.
Qed.

(** C2 as the specification states it fails on the worked configuration when
    the config-file write fails: the applied snapshot is replaced by the
    candidate and the state file has been written. *)
Lemma failed_write_still_commits :
  ~ failure_keeps_snapshot ex_applied (ex_world [ex_host true 10] LF true).
Proof.
  intros H.
  destruct (H false ["disable server web/a"]) as [Hb _].
  - vm_compute. reflexivity.
  - vm_compute. discriminate.
  - vm_compute in Hb. discriminate.
Qed.

(** C2, amended.  In a pass whose diff is Structural or EnableDisableOnly the
    applied snapshot is set to the candidate before the Effector runs and
    stays so whether or not the config-file write or the reload fails; when
    a state file is configured its write is the first I/O of the pass, ahead
    of the config-file write, and the only state-file write of the pass; and
    a later pass with the same candidate finds nothing modified and performs
    no I/O. *)
Theorem modified_tick_commits_first (h : HAProxy) (w : World)
    (B : HAProxyBackendSlice) (r : bool) (cmds : list string) :
  isBackendsModified h B = (true, r, cmds, None) ->
  Backends (fst (tick_on h w B)) = B /\
  (StateFile h <> "" ->
   forall data, json_Marshal w B = inl data ->
   exists rest,
     snd (tick_on h w B) = EvWriteState (StateFile h) data :: rest /\
     Forall not_state rest) /\
  (forall w', tick_on (fst (tick_on h w B)) w' B = (fst (tick_on h w B), [])).
Proof.
  intros E. rewrite (tick_on_modified h w B r cmds E). simpl.
  split; [reflexivity|]. split.
  - intros Hsf data Hm.
    destruct (String.eqb_spec (StateFile h) "") as [Heq|_]; [contradiction|].
    simpl. unfold SaveState at 1. simpl. rewrite Hm.
    eexists. split.
    + destruct (ioutil_WriteFile w (StateFile h) data); simpl; reflexivity.
    + rewrite Forall_app. split; [apply SaveConfiguration_no_state|].
      destruct (fst (SaveConfiguration _ w)); [constructor|].
      apply apply_change_no_state.
  - intros w'.
    assert (Hlen : length B = length (Services h)).
    { destruct (Nat.eq_dec (length B) (length (Services h))) as [Hl|Hl];
        [exact Hl|].
      rewrite (isBackendsModified_count h B Hl) in E. discriminate. }
    eapply tick_on_not_modified.
    apply (isBackendsModified_same (set_Backends h B) Hlen).
Qed.

Lemma modified_tick_commits_first_witness :
  let w := ex_world [ex_host true 10] LF true in
  let B := getAllBackends ex_applied w in
  Backends (fst (tick_on ex_applied w B)) = B /\
  (exists rest,
     snd (tick_on ex_applied w B)
       = EvWriteState "/var/lib/synapse/state.json" "[]" :: rest /\
     Forall not_state rest) /\
  tick_on (fst (tick_on ex_applied w B)) w B = (fst (tick_on ex_applied w B), []).
Proof.
  intros w B.
  destruct (modified_tick_commits_first ex_applied w B false
              ["disable server web/a"]) as (H1 & H2 & H3).
  - vm_compute. reflexivity.
  - split; [exact H1|]. split; [|apply H3].
    apply H2; [vm_compute; discriminate | reflexivity].
Defined.

(** ** Serialization *)




(** ** Weights *)

Lemma range_from_map {A B St : Type} (f : St -> nat -> B -> St) (g : A -> B)
    (xs : list A) :
  forall i s,
    range_from f i (map g xs) s = range_from (fun s i x => f s i (g x)) i xs s.
Proof. induction xs as [|x xs IH]; intros i s; simpl; [reflexivity|apply IH]. Qed.

Lemma server_body_erase (b old : HAProxyBackend) (acc : DiffAcc) (i : nat)
    (s : HAProxyBackendServer) :
  server_body (erase_weights b) old acc i (erase_weight s)
  = server_body b old acc i s.
Proof. reflexivity. Qed.

Lemma backend_body_erase (h : HAProxy) (acc : DiffAcc) (i : nat)
    (b : HAProxyBackend) :
  backend_body h acc i (erase_weights b) = backend_body h acc i b.
Proof.
  unfold backend_body. simpl. rewrite length_map.
  destruct (negb _); [reflexivity|].
  unfold range. rewrite range_from_map. reflexivity.
Qed.

(** The Differ does not read the weights of the candidate. *)
Lemma isBackendsModified_erase (h : HAProxy) (B : HAProxyBackendSlice) :
  isBackendsModified h (map erase_weights B) = isBackendsModified h B.
Proof.
  unfold isBackendsModified. rewrite length_map.
  destruct (negb _); [reflexivity|].
  destruct (_ =? _)%nat; [|reflexivity].
  unfold range. rewrite range_from_map.
  rewrite (range_from_ext _ (backend_body h)); [reflexivity|].
  intros s i x _. apply backend_body_erase.
Qed.

Lemma server_line_erase (b : HAProxyBackend) (data : string)
    (s : HAProxyBackendServer) :
  server_line (erase_weights b) data (erase_weight s) = server_line b data s.
Proof. reflexivity. Qed.

Lemma fold_left_map {A B St : Type} (f : St -> B -> St) (g : A -> B)
    (xs : list A) :
  forall s, fold_left f (map g xs) s = fold_left (fun s x => f s (g x)) xs s.
Proof. induction xs as [|x xs IH]; intros s; simpl; [reflexivity|apply IH]. Qed.

Lemma backend_section_erase (data : string) (b : HAProxyBackend) :
  backend_section data (erase_weights b) = backend_section data b.
Proof.
  unfold backend_section. simpl. now rewrite fold_left_map.
Qed.

Lemma backend_sections_erase (B : HAProxyBackendSlice) :
  forall data,
    fold_left backend_section (map erase_weights B) data
    = fold_left backend_section B data.
Proof.
  induction B as [|b B IH]; intros data; simpl; [reflexivity|].
  rewrite backend_section_erase. apply IH.
Qed.

(** The serialization does not read the weights. *)
Lemma config_data_erase (h : HAProxy) (B : HAProxyBackendSlice) :
  config_data (set_Backends h (map erase_weights B))
  = config_data (set_Backends h B).
Proof. unfold config_data. simpl. apply backend_sections_erase. Qed.

Lemma upto_weight_erase (A B : HAProxyBackendSlice) :
  upto_weight A B -> map erase_weights A = map erase_weights B.
Proof.
  induction 1 as [|a b A B (Hn & Hp & Ho & Hl & Hs) _ IH]; simpl;
    [reflexivity|].
  rewrite IH. f_equal.
  destruct a as [an ap ao al asv], b as [bn bp bo bl bsv]. simpl in *.
  subst. unfold erase_weights. simpl. f_equal.
  clear IH. induction Hs as [|x y xs ys (H1 & H2 & H3 & H4 & H5) _ IHs]; simpl;
    [reflexivity|].
  rewrite IHs. f_equal.
  destruct x, y. simpl in *. subst. reflexivity.
Qed.

(** C9.  Two candidates that agree on everything but the weights of their
    servers get the same answer from the Differ, with the same socket
    commands, and the same configuration text: the weight is neither
    compared nor written. *)
Theorem weight_is_inert (h : HAProxy) (B1 B2 : HAProxyBackendSlice) :
  upto_weight B1 B2 ->
  isBackendsModified h B1 = isBackendsModified h B2 /\
  config_data (set_Backends h B1) = config_data (set_Backends h B2).
Proof.
  intros H. apply upto_weight_erase in H. split.
  - now rewrite <- (isBackendsModified_erase h B1),
                <- (isBackendsModified_erase h B2), H.
  - now rewrite <- (config_data_erase h B1), <- (config_data_erase h B2), H.
Qed.

Lemma weight_is_inert_witness :
  let B1 := getAllBackends ex_applied (ex_world [ex_host true 10] LF false) in
  let B2 := getAllBackends ex_applied (ex_world [ex_host true 200] LF false) in
  B1 <> B2 /\
  isBackendsModified ex_applied B1 = isBackendsModified ex_applied B2 /\
  config_data (set_Backends ex_applied B1) = config_data (set_Backends ex_applied B2).
Proof.
  intros B1 B2. split; [vm_compute; discriminate|].
  apply (weight_is_inert ex_applied B1 B2).
  vm_compute. repeat constructor.
Defined.

(** ** The State Store *)

(** C6.  [LoadState] adopts the state file only when its modification time
    is at most 2000ms before now.  A file older than that is ignored: it is
    not read and the applied snapshot stays what it was, empty at startup.
    A snapshot that [LoadState] changed comes from a file within the 2000ms,
    and a readable file within the 2000ms is decoded into the snapshot. *)
Theorem stale_state_file_is_ignored (h : HAProxy) (w : World) :
  (forall mtime,
     os_Stat w (StateFile h) = inl mtime ->
     2000 * Millisecond < time_Now w - mtime ->
     LoadState h w = (h, None, [EvStat (StateFile h)]) /\
     (Backends h = [] -> Backends (fst (fst (LoadState h w))) = [])) /\
  (Backends (fst (fst (LoadState h w))) <> Backends h ->
   exists mtime,
     os_Stat w (StateFile h) = inl mtime /\
     time_Now w - mtime <= 2000 * Millisecond) /\
  (forall mtime file,
     os_Stat w (StateFile h) = inl mtime ->
     time_Now w - mtime <= 2000 * Millisecond ->
     ioutil_ReadFile w (StateFile h) = inl file ->
     Backends (fst (fst (LoadState h w)))
       = fst (json_Unmarshal w file (Backends h))).
Proof.
  unfold LoadState. repeat split.
  - rewrite H. destruct (Z.ltb_spec (mtime + 2000 * Millisecond) (time_Now w));
      [reflexivity|lia].
  - rewrite H. destruct (Z.ltb_spec (mtime + 2000 * Millisecond) (time_Now w));
      [simpl; auto|lia].
  - intros Hne. destruct (os_Stat w (StateFile h)) as [mtime|e];
      [|now contradiction Hne].
    exists mtime. split; [reflexivity|].
    destruct (Z.ltb_spec (mtime + 2000 * Millisecond) (time_Now w));
      [now contradiction Hne|lia].
  - intros mtime file Hs Hage Hr. rewrite Hs, Hr.
    destruct (Z.ltb_spec (mtime + 2000 * Millisecond) (time_Now w)); [lia|].
    destruct (json_Unmarshal w file (Backends h)). reflexivity.
Qed.

Lemma stale_state_file_is_ignored_witness :
  let stored := Backends ex_applied in
  let stale := ex_world_state 0 2000000001 stored in
  let fresh := ex_world_state 0 2000000000 stored in
  (LoadState ex_init stale = (ex_init, None, [EvStat "/var/lib/synapse/state.json"]) /\
   Backends (fst (fst (LoadState ex_init stale))) = []) /\
  (exists mtime,
     os_Stat fresh (StateFile ex_init) = inl mtime /\
     time_Now fresh - mtime <= 2000 * Millisecond) /\
  Backends (fst (fst (LoadState ex_init fresh))) = stored.
Proof.
  intros stored stale fresh.
  destruct (stale_state_file_is_ignored ex_init stale) as (Hs & _ & _).
  destruct (stale_state_file_is_ignored ex_init fresh) as (_ & Hc & Hf).
  split; [|split].
  - destruct (Hs 0) as [H1 H2]; [reflexivity|reflexivity|].
    split; [exact H1|]. apply H2. reflexivity.
  - apply Hc. vm_compute. discriminate.
  - apply (Hf 0 "[]"); [reflexivity|vm_compute; discriminate|reflexivity].
Defined.

(** ** The ZooKeeper watcher *)

Section ZkFacts.
Context {RM : Zk.ReportMap}.














End ZkFacts.



(** ** The Differ, in closed form *)

Lemma key_eqb_spec (o n : HAProxyBackendServer) :
  key_eqb o n = true <-> same_key o n.
Proof.
  unfold key_eqb, same_key. rewrite !andb_true_iff, !String.eqb_eq, Z.eqb_eq.
  intuition congruence.
Qed.

(** The inner loop, whatever the servers are. *)
Lemma server_range_diff (backend old : HAProxyBackend)
    (olds news : list HAProxyBackendServer) :
  forall pre m r cmds,
    bServers old = pre ++ olds ->
    length olds = length news ->
    range_from (server_body backend old) (length pre) news (m, r, cmds) =
      (let '(m', r', c') := servers_diff (bName backend) olds news in
       (m || m', r || r', cmds ++ c')).
Proof.
  revert olds. induction news as [|n news IH]; intros olds pre m r cmds Hold Hlen.
  - destruct olds; [|discriminate]. simpl.
    now rewrite !orb_false_r, app_nil_r.
  - destruct olds as [|o olds]; [discriminate|].
    injection Hlen as Hlen.
    assert (Hold' : bServers old = (pre ++ [o]) ++ olds)
      by (now rewrite <- app_assoc).
    assert (Hl : S (length pre) = length (pre ++ [o]))
      by (rewrite length_app; simpl; lia).
    cbn [range_from servers_diff].
    unfold server_body at 2. rewrite Hold, nth_middle.
    fold (key_eqb o n). rewrite Hl.
    destruct (servers_diff (bName backend) olds news) as [[m' r'] c'] eqn:E.
    destruct (key_eqb o n).
    + destruct (Bool.eqb (sDisabled n) (sDisabled o)) eqn:Hd; cbn [negb].
      * rewrite (IH olds _ m r cmds Hold' Hlen), E. reflexivity.
      * unfold directive; cbn [fst snd].
        destruct (sDisabled n);
          rewrite (IH olds _ true r _ Hold' Hlen), E, <- app_assoc;
          cbn [app]; rewrite orb_true_r; reflexivity.
    + rewrite (IH olds _ true true cmds Hold' Hlen), E.
      now rewrite !orb_true_r.
Qed.

(** The outer loop, whatever the backends are. *)
Lemma backend_range_diff (h : HAProxy) (A B : HAProxyBackendSlice) :
  forall pre m r cmds,
    Backends h = pre ++ A ->
    length A = length B ->
    range_from (backend_body h) (length pre) B (m, r, cmds) =
      (let '(m', r', c') := backends_diff A B in
       (m || m', r || r', cmds ++ c')).
Proof.
  revert A. induction B as [|b B IH]; intros A pre m r cmds Hold Hlen.
  - destruct A; [|discriminate]. simpl.
    now rewrite !orb_false_r, app_nil_r.
  - destruct A as [|a A]; [discriminate|].
    injection Hlen as Hlen.
    assert (Hold' : Backends h = (pre ++ [a]) ++ A)
      by (now rewrite <- app_assoc).
    assert (Hl : S (length pre) = length (pre ++ [a]))
      by (rewrite length_app; simpl; lia).
    cbn [range_from backends_diff].
    unfold backend_body at 2. rewrite Hold, nth_middle, Hl.
    destruct (backends_diff A B) as [[m' r'] c'] eqn:E.
    destruct (Nat.eqb_spec (length (bServers b)) (length (bServers a))) as [Hs|Hs];
      cbn [negb].
    + unfold range.
      pose proof (server_range_diff b a (bServers a) (bServers b) [] m r cmds
                    eq_refl (eq_sym Hs)) as E1.
      cbn [length app] in E1. rewrite E1.
      destruct (servers_diff (bName b) (bServers a) (bServers b))
        as [[m1 r1] c1].
      rewrite (IH A _ _ _ _ Hold' Hlen), E.
      now rewrite !orb_assoc, app_assoc.
    + rewrite (IH A _ true true cmds Hold' Hlen), E.
      now rewrite !orb_true_r.
Qed.

(** The Differ on a candidate with one backend per service. *)
Lemma isBackendsModified_diff (h : HAProxy) (B : HAProxyBackendSlice) :
  length B = length (Services h) ->
  isBackendsModified h B =
    (if (length B =? length (Backends h))%nat
     then backends_diff (Backends h) B
     else (true, true, []),
     None).
Proof.
  intros Hlen. unfold isBackendsModified.
  rewrite Hlen, Nat.eqb_refl. cbn [negb]. rewrite <- Hlen.
  destruct (Nat.eqb_spec (length B) (length (Backends h))) as [Hb|Hb];
    [|reflexivity].
  unfold range.
  pose proof (backend_range_diff h (Backends h) B [] false false [] eq_refl
                (eq_sym Hb)) as E.
  cbn [length app] in E. rewrite E.
  destruct (backends_diff (Backends h) B) as [[m r] c]. reflexivity.
Qed.

Lemma servers_diff_flags (name : string) (olds news : list HAProxyBackendServer) :
  length olds = length news ->
  let '(m, r, c) := servers_diff name olds news in
  (m = false <-> Forall2 agree olds news) /\
  (r = false <-> Forall2 same_key olds news) /\
  (m = false -> c = []) /\
  Forall (fun cmd => exists s, In s news /\ cmd = directive (name, s)) c /\
  (length c <= length news)%nat.
Proof.
  revert news. induction olds as [|o olds IH]; intros [|n news] Hlen;
    try discriminate; cbn [servers_diff].
  - repeat split; auto; constructor.
  - injection Hlen as Hlen. specialize (IH news Hlen).
    destruct (servers_diff name olds news) as [[m r] c].
    destruct IH as (Hm & Hr & Hc & Hall & Hn).
    assert (Hall' : Forall (fun cmd => exists s, In s (n :: news) /\
                                 cmd = directive (name, s)) c).
    { eapply List.Forall_impl; [|exact Hall].
      intros cmd (s & Hs & ->). exists s. split; [now right|reflexivity]. }
    destruct (key_eqb o n) eqn:Hk.
    + apply key_eqb_spec in Hk.
      destruct (Bool.eqb (sDisabled n) (sDisabled o)) eqn:Hd.
      * apply Bool.eqb_prop in Hd.
        repeat split; try tauto; try (cbn [length]; lia).
        -- intros ->. constructor; [split; [exact Hk|now symmetry]|tauto].
        -- intros H. inversion H; subst. tauto.
        -- intros ->. constructor; tauto.
        -- intros H. inversion H; subst. tauto.
      * apply Bool.eqb_false_iff in Hd.
        repeat split; try discriminate; try (cbn [length]; lia).
        -- intros H. inversion H as [|? ? ? ? [_ Hf]]; subst. congruence.
        -- intros ->. constructor; tauto.
        -- intros H. inversion H; subst. tauto.
        -- constructor; [|exact Hall'].
           exists n. split; [now left|reflexivity].
    + assert (Hnk : ~ same_key o n)
        by (rewrite <- key_eqb_spec; congruence).
      repeat split; try discriminate; try (cbn [length]; lia); auto.
      * intros H. inversion H as [|? ? ? ? [Hf _]]; subst. contradiction.
      * intros H. inversion H; subst. contradiction.
Qed.

Lemma all_servers_cons (b : HAProxyBackend) (B : HAProxyBackendSlice) :
  all_servers (b :: B) = map (pair (bName b)) (bServers b) ++ all_servers B.
Proof. reflexivity. Qed.

Lemma backends_diff_flags (A B : HAProxyBackendSlice) :
  length A = length B ->
  let '(m, r, c) := backends_diff A B in
  (m = false <-> same_compared A B) /\
  (r = false <-> flags_only A B) /\
  (m = false -> c = []) /\
  Forall (fun cmd => exists d, In d (all_servers B) /\ cmd = directive d) c /\
  (length c <= length (all_servers B))%nat.
Proof.
  revert B. induction A as [|a A IH]; intros [|b B] Hlen;
    try discriminate; cbn [backends_diff].
  - repeat split; auto; constructor.
  - injection Hlen as Hlen. specialize (IH B Hlen).
    destruct (backends_diff A B) as [[m r] c].
    destruct IH as (Hm & Hr & Hc & Hall & Hn).
    rewrite all_servers_cons.
    assert (Hall' : Forall (fun cmd => exists d,
                       In d (map (pair (bName b)) (bServers b) ++ all_servers B)
                       /\ cmd = directive d) c).
    { eapply List.Forall_impl; [|exact Hall].
      intros cmd (d & Hd & ->). exists d. split; [|reflexivity].
      apply in_or_app. now right. }
    destruct (Nat.eqb_spec (length (bServers b)) (length (bServers a))) as [Hs|Hs].
    + pose proof (servers_diff_flags (bName b) (bServers a) (bServers b)
                    (eq_sym Hs)) as H1.
      destruct (servers_diff (bName b) (bServers a) (bServers b))
        as [[m1 r1] c1].
      destruct H1 as (Hm1 & Hr1 & Hc1 & Hall1 & Hn1).
      rewrite !orb_false_iff, !length_app, length_map. repeat split.
      * intros [E1 E2]. constructor; tauto.
      * apply Hm1. inversion H; subst. assumption.
      * apply Hm. inversion H; subst. assumption.
      * intros [E1 E2]. constructor; tauto.
      * apply Hr1. inversion H; subst. assumption.
      * apply Hr. inversion H; subst. assumption.
      * intros [E1 E2]. now rewrite (Hc1 E1), (Hc E2).
      * apply Forall_app. split; [|exact Hall'].
        eapply List.Forall_impl; [|exact Hall1].
        intros cmd (s & Hin & ->). exists (bName b, s). split; [|reflexivity].
        apply in_or_app. left. now apply in_map.
      * lia.
    + repeat split; try discriminate; auto.
      * intros H. inversion H as [|? ? ? ? Hf]; subst.
        apply Forall2_length in Hf. congruence.
      * intros H. inversion H as [|? ? ? ? Hf]; subst.
        apply Forall2_length in Hf. congruence.
      * rewrite length_app. lia.
Qed.

Lemma same_compared_length (A B : HAProxyBackendSlice) :
  same_compared A B -> length A = length B.
Proof. apply Forall2_length. Qed.

(** X1.  For a candidate with one backend per service, the Differ answers
    NoChange exactly when the candidate has the backends of the applied
    snapshot with, place by place, servers of the same name, host, port and
    disabled flag; nothing else is compared.  In that case the pass does
    nothing, also when the configuration text of the candidate is another
    one (a changed listen port, server options, or weight). *)
Theorem nochange_iff_compared_attributes_agree (h : HAProxy) (w : World)
    (B : HAProxyBackendSlice) :
  length B = length (Services h) ->
  (classify (isBackendsModified h B) = Some NoChange
   <-> same_compared (Backends h) B) /\
  (same_compared (Backends h) B -> tick_on h w B = (h, [])).
Proof.
  intros Hlen. rewrite (isBackendsModified_diff h B Hlen).
  assert (Hiff : classify
            (if (length B =? length (Backends h))%nat
             then backends_diff (Backends h) B else (true, true, []), None)
            = Some NoChange <-> same_compared (Backends h) B).
  { destruct (Nat.eqb_spec (length B) (length (Backends h))) as [Hb|Hb].
    - pose proof (backends_diff_flags (Backends h) B (eq_sym Hb)) as H.
      destruct (backends_diff (Backends h) B) as [[m r] c].
      destruct H as (Hm & _). cbn [classify]. rewrite <- Hm.
      destruct m; [destruct r|]; cbn; split; congruence.
    - cbn. split; [discriminate|].
      intros H. apply same_compared_length in H. congruence. }
  split; [exact Hiff|].
  intros Hs. apply Hiff in Hs.
  rewrite <- (isBackendsModified_diff h B Hlen) in Hs.
  unfold tick_on.
  destruct (isBackendsModified h B) as [[[m r] c] [e|]]; [reflexivity|].
  cbn in Hs. destruct m; [destruct r; discriminate|reflexivity].
Qed.

Lemma nochange_iff_compared_attributes_agree_witness :
  classify (isBackendsModified ex_applied ex_reconfigured) = Some NoChange /\
  tick_on ex_applied (ex_world [ex_host false 10] LF false) ex_reconfigured
    = (ex_applied, []) /\
  config_data (set_Backends ex_applied ex_reconfigured) <> config_data ex_applied.
Proof.
  destruct (nochange_iff_compared_attributes_agree ex_applied
              (ex_world [ex_host false 10] LF false) ex_reconfigured)
    as [Hiff Ht]; [reflexivity|].
  assert (Hs : same_compared (Backends ex_applied) ex_reconfigured)
    by (vm_compute; repeat constructor).
  split; [apply Hiff, Hs|]. split; [apply Ht, Hs|].
  vm_compute. discriminate.
Defined.

(** X2.  For a candidate with one backend per service, the Differ answers
    Structural exactly when the candidate does not have the backends of the
    applied snapshot with, place by place, servers of the same name, host
    and port: a backend or a server more or less, or a server renamed or
    moved. *)
Theorem structural_iff_shape_differs (h : HAProxy) (B : HAProxyBackendSlice) :
  length B = length (Services h) ->
  (classify (isBackendsModified h B) = Some Structural
   <-> ~ flags_only (Backends h) B).
Proof.
  intros Hlen. rewrite (isBackendsModified_diff h B Hlen).
  destruct (Nat.eqb_spec (length B) (length (Backends h))) as [Hb|Hb].
  - pose proof (backends_diff_flags (Backends h) B (eq_sym Hb)) as H.
    destruct (backends_diff (Backends h) B) as [[m r] c].
    destruct H as (Hm & Hr & _). cbn [classify]. rewrite <- Hr.
    destruct m, r; cbn; split; try congruence.
    exfalso. assert (Hf : same_compared (Backends h) B) by now apply Hm.
    assert (Hfo : flags_only (Backends h) B).
    { eapply Forall2_impl; [exact Hf|]. intros a b Hab.
      eapply Forall2_impl; [exact Hab|]. now intros x y [Hk _]. }
    apply Hr in Hfo. discriminate.
  - cbn. split; [|reflexivity].
    intros _ Hf. apply Forall2_length in Hf. congruence.
Qed.

Lemma structural_iff_shape_differs_witness :
  classify (isBackendsModified ex_applied
              (getAllBackends ex_applied
                 (ex_world [ex_host_b; ex_host false 10] LF false)))
    = Some Structural /\
  ~ flags_only (Backends ex_applied)
      (getAllBackends ex_applied
         (ex_world [ex_host_b; ex_host false 10] LF false)).
Proof.
  destruct (structural_iff_shape_differs ex_applied
              (getAllBackends ex_applied
                 (ex_world [ex_host_b; ex_host false 10] LF false)))
    as [H1 H2]; [reflexivity|].
  assert (Hc : classify (isBackendsModified ex_applied
              (getAllBackends ex_applied
                 (ex_world [ex_host_b; ex_host false 10] LF false)))
            = Some Structural) by (vm_compute; reflexivity).
  split; [exact Hc|]. apply H1, Hc.
Defined.

(** X3.  Whatever the Differ answers, each socket command it returns is the
    directive of a server of the candidate, "disable server b/s" if the
    candidate disables it and "enable server b/s" otherwise, there are at
    most as many commands as the candidate has servers, and there is none
    when it reports no modification or a count error. *)
Theorem socket_commands_name_candidate_servers (h : HAProxy)
    (B : HAProxyBackendSlice) :
  let '(isModified, _, socketCommands, err) := isBackendsModified h B in
  Forall (fun cmd => exists d, In d (all_servers B) /\ cmd = directive d)
    socketCommands /\
  (length socketCommands <= length (all_servers B))%nat /\
  (isModified = true \/ socketCommands = []) /\
  (err = None \/ socketCommands = []).
Proof.
  destruct (Nat.eq_dec (length B) (length (Services h))) as [Hlen|Hlen].
  - rewrite (isBackendsModified_diff h B Hlen).
    destruct (Nat.eqb_spec (length B) (length (Backends h))) as [Hb|Hb].
    + pose proof (backends_diff_flags (Backends h) B (eq_sym Hb)) as H.
      destruct (backends_diff (Backends h) B) as [[m r] c].
      destruct H as (_ & _ & Hc & Hall & Hn).
      split; [exact Hall|]. split; [exact Hn|]. split; [|now left].
      destruct m; [now left|right; now apply Hc].
    + split; [constructor|]. split; [cbn; lia|]. split; now left.
  - rewrite (isBackendsModified_count h B Hlen).
    split; [constructor|]. split; [cbn; lia|]. split; now right.
Qed.

(** ** The Assembler, up to order *)

Lemma service_backend_of (w : World) (service : SynapseService) :
  backend_of w (service_backend w service) service.
Proof.
  unfold backend_of, service_backend. cbn.
  repeat split. rewrite !fold_append_map. cbn.
  apply Permutation_sym, sort_Sort_perm.
Qed.

(** X4.  The candidate is, up to the order [sort.Sort] gives the backends
    and the servers of each backend, one backend per service, in which the
    name, port, server options and listen lines are the service's and the
    servers are the service's default servers and the hosts its discovery
    reports, each exactly once: nothing is dropped, merged or invented. *)
Theorem candidate_is_services_up_to_order (h : HAProxy) (w : World) :
  exists l,
    Permutation (getAllBackends h w) l /\
    Forall2 (backend_of w) l (Services h).
Proof.
  exists (map (service_backend w) (Services h)). split.
  - rewrite getAllBackends_unfold. apply Permutation_sym, sort_Sort_perm.
  - induction (Services h) as [|s l IH]; cbn; constructor;
      [apply service_backend_of|exact IH].
Qed.

Lemma in_getAllBackends (h : HAProxy) (w : World) (b : HAProxyBackend) :
  In b (getAllBackends h w) <->
  exists service, In service (Services h) /\ b = service_backend w service.
Proof.
  rewrite getAllBackends_unfold.
  split.
  - intros Hin.
    apply (Permutation_in _ (Permutation_sym (sort_Sort_perm backend_less _)))
      in Hin.
    apply in_map_iff in Hin. destruct Hin as (s & <- & Hs). eauto.
  - intros (s & Hs & ->).
    apply (Permutation_in _ (sort_Sort_perm backend_less _)).
    now apply in_map.
Qed.

Lemma in_service_backend (w : World) (service : SynapseService)
    (s : HAProxyBackendServer) :
  In s (bServers (service_backend w service)) <->
  In s (service_servers w service).
Proof.
  destruct (service_backend_of w service) as (_ & _ & _ & _ & Hp).
  split; apply Permutation_in; [exact Hp|apply Permutation_sym, Hp].
Qed.

(** X5.  A server of the candidate is disabled only if a discovery source of
    its service reports it in maintenance; the default servers of a service
    are in its backend, enabled. *)
Theorem disabled_only_by_maintenance (h : HAProxy) (w : World) :
  (forall b s,
     In b (getAllBackends h w) -> In s (bServers b) -> sDisabled s = true ->
     exists service d,
       In service (Services h) /\ bName b = svName service /\
       In d (GetDiscoveredHosts w (Discovery service)) /\
       dMaintenance d = true /\ s = discovered_server d) /\
  (forall service c,
     In service (Services h) -> In c (DefaultServers service) ->
     exists b,
       In b (getAllBackends h w) /\ bName b = svName service /\
       In (default_server c) (bServers b) /\
       sDisabled (default_server c) = false).
Proof.
  split.
  - intros b s Hb Hs Hd.
    apply in_getAllBackends in Hb. destruct Hb as (service & Hsv & ->).
    apply in_service_backend in Hs. unfold service_servers in Hs.
    apply in_app_or in Hs. destruct Hs as [Hs|Hs]; apply in_map_iff in Hs;
      destruct Hs as (x & <- & Hx).
    + discriminate.
    + exists service, x. repeat split; auto.
  - intros service c Hsv Hc.
    exists (service_backend w service). repeat split.
    + apply in_getAllBackends. eauto.
    + apply in_service_backend. unfold service_servers.
      apply in_or_app. left. now apply in_map.
Qed.

Lemma disabled_only_by_maintenance_witness :
  let w := ex_world [ex_host_b; ex_host true 10] LF false in
  (exists service d,
     In service (Services ex_two) /\
     In d (GetDiscoveredHosts w (Discovery service)) /\
     dMaintenance d = true /\
     discovered_server (ex_host true 10) = discovered_server d) /\
  (exists b,
     In b (getAllBackends ex_two w) /\ bName b = "db" /\
     In (default_server {| cName := "primary"; cHost := "10.0.1.1";
                           cPort := 5432 |}) (bServers b)).
Proof.
  intros w.
  destruct (disabled_only_by_maintenance ex_two w) as [H1 H2]. split.
  - destruct (H1 (service_backend w ex_service)
                (discovered_server (ex_host true 10)))
      as (service & d & Hs & _ & Hd & Hm & He).
    + vm_compute. right. left. reflexivity.
    + vm_compute. left. reflexivity.
    + reflexivity.
    + exists service, d. repeat split; assumption.
  - destruct (H2 ex_service_db {| cName := "primary"; cHost := "10.0.1.1";
                                  cPort := 5432 |})
      as (b & Hb & Hn & Hin & _).
    + right. left. reflexivity.
    + left. reflexivity.
    + exists b. repeat split; assumption.
Defined.

(** ** The configuration text, part by part *)

Lemma append_assoc (a b c : string) : (a +:+ b) +:+ c = a +:+ (b +:+ c).
Proof.
  induction a as [|x a IH]; [reflexivity|].
  change (String x ((a +:+ b) +:+ c) = String x (a +:+ (b +:+ c))).
  now rewrite IH.
Qed.

Lemma append_nil_r (a : string) : a +:+ "" = a.
Proof.
  induction a as [|x a IH]; [reflexivity|].
  change (String x (a +:+ "") = String x a). now rewrite IH.
Qed.

Lemma join_app (l1 l2 : list string) : join (l1 ++ l2) = join l1 +:+ join l2.
Proof.
  induction l1 as [|x l1 IH]; [reflexivity|].
  change (x +:+ join (l1 ++ l2) = (x +:+ join l1) +:+ join l2).
  now rewrite IH, append_assoc.
Qed.

Lemma fold_left_join {A : Type} (f : string -> A -> string) (g : A -> string)
    (l : list A) :
  (forall data x, f data x = data +:+ g x) ->
  forall data, fold_left f l data = data +:+ join (map g l).
Proof.
  intros Hf. induction l as [|x l IH]; intros data; cbn.
  - now rewrite append_nil_r.
  - now rewrite IH, Hf, append_assoc.
Qed.

Lemma server_line_text (backend : HAProxyBackend) (data : string)
    (server : HAProxyBackendServer) :
  server_line backend data server = data +:+ server_text backend server.
Proof.
  unfold server_line, server_text.
  destruct (String.eqb (sHAProxyServerOptions server) ""),
    (sDisabled server); cbn [negb];
    rewrite ?append_assoc; cbn [String.append]; reflexivity.
Qed.

Lemma backend_section_text (data : string) (backend : HAProxyBackend) :
  backend_section data backend = data +:+ backend_text backend.
Proof.
  unfold backend_section, backend_text.
  rewrite (fold_left_join (server_line backend) (server_text backend))
    by apply server_line_text.
  rewrite (fold_left_join indented_line (fun line => "  " +:+ line +:+ LF))
    by reflexivity.
  rewrite !append_assoc. reflexivity.
Qed.

(** X6.  The configuration text is the preamble (banner, global lines,
    defaults lines) followed by one section per backend, in the order of the
    snapshot; the section of a backend is determined by that backend alone:
    its name, its port, its listen lines, and one line per server in the
    order of its servers, with the backend's server options, the server's own
    options when it has some, and "disabled" when it is disabled.  Hence the
    text for two snapshots one after the other is the text of the first
    followed by the sections of the second. *)
Theorem config_text_is_preamble_and_sections (h : HAProxy) :
  config_data h
    = preamble (Configuration h) +:+ join (map backend_text (Backends h)) /\
  forall B1 B2,
    config_data (set_Backends h (B1 ++ B2))
    = config_data (set_Backends h B1) +:+ join (map backend_text B2).
Proof.
  assert (Hc : forall h', config_data h'
            = preamble (Configuration h') +:+ join (map backend_text (Backends h'))).
  { intros h'. unfold config_data, preamble.
    rewrite (fold_left_join backend_section backend_text)
      by apply backend_section_text.
    rewrite !(fold_left_join indented_line (fun line => "  " +:+ line +:+ LF))
      by reflexivity.
    rewrite !append_assoc. reflexivity. }
  split; [apply Hc|].
  intros B1 B2. rewrite !Hc. cbn [Configuration Backends set_Backends].
  now rewrite map_app, join_app, append_assoc.
Qed.

(** ** What a pass does, and when *)

Lemma SaveState_gated (h : HAProxy) (w : World) :
  StateFile h <> "" -> Forall (gated h) (snd (SaveState h w)).
Proof.
  intros Hs. unfold SaveState. destruct (json_Marshal w _); [|constructor].
  destruct (ioutil_WriteFile w _ _); repeat constructor; auto.
Qed.

Lemma SaveConfiguration_gated (h : HAProxy) (w : World) :
  Forall (gated h) (snd (SaveConfiguration h w)).
Proof.
  unfold SaveConfiguration. destruct (DoWrites _) eqn:E; [|constructor].
  destruct (ioutil_WriteFile w _ _); repeat constructor; auto.
Qed.

Lemma reloadHAProxyDaemon_gated (h : HAProxy) (w : World) :
  Forall (gated h) (snd (reloadHAProxyDaemon h w)).
Proof.
  unfold reloadHAProxyDaemon. destruct (DoReloads _) eqn:E; [|constructor].
  destruct (exec_Run w _ _); repeat constructor; auto.
Qed.

Lemma socket_commands_gated (h : HAProxy) (w : World) (commands : list string) :
  DoSocket (Configuration h) = true ->
  forall i, Forall (gated h) (snd (socket_commands w i commands)).
Proof.
  intros Hs. induction commands as [|c cs IH]; intros i; simpl;
    [repeat constructor; exact Hs|].
  destruct (conn_Write w i c); [repeat constructor; exact Hs|].
  destruct (conn_Read w i) as [s [e|]]; [repeat constructor; exact Hs|].
  destruct (negb (String.eqb s LF)); [repeat constructor; exact Hs|].
  specialize (IH (S i)). destruct (socket_commands w (S i) cs) as [e t].
  repeat constructor; try exact Hs. exact IH.
Qed.

Lemma changeBackendsStateBySocket_gated (h : HAProxy) (w : World)
    (commands : list string) :
  Forall (gated h) (snd (changeBackendsStateBySocket h w commands)).
Proof.
  unfold changeBackendsStateBySocket. destruct (DoSocket _) eqn:E; [|constructor].
  destruct (net_Dial w _); [repeat constructor; auto|].
  pose proof (socket_commands_gated h w commands E 0%nat) as H.
  destruct (socket_commands w 0%nat commands) as [e t].
  constructor; [split; auto|exact H].
Qed.

Lemma apply_change_gated (h : HAProxy) (w : World) (r : bool)
    (cmds : list string) :
  Forall (gated h) (apply_change h w r cmds).
Proof.
  unfold apply_change.
  destruct r; [apply reloadHAProxyDaemon_gated|].
  destruct (_ && _); [apply reloadHAProxyDaemon_gated|].
  pose proof (changeBackendsStateBySocket_gated h w cmds) as Hs.
  destruct (changeBackendsStateBySocket h w cmds) as [[e|] t]; simpl in Hs;
    [|exact Hs].
  rewrite Forall_app. split; [exact Hs|apply reloadHAProxyDaemon_gated].
Qed.

Lemma gated_set_Backends (h : HAProxy) (B : HAProxyBackendSlice) (e : Event) :
  gated (set_Backends h B) e <-> gated h e.
Proof. destruct e; reflexivity. Qed.

Lemma tick_on_gated (h : HAProxy) (w : World) (B : HAProxyBackendSlice) :
  Forall (gated h) (snd (tick_on h w B)).
Proof.
  unfold tick_on.
  destruct (isBackendsModified h B) as [[[m r] cmds] [e|]]; [constructor|].
  destruct m; [|constructor].
  assert (Hall : forall t, Forall (gated (set_Backends h B)) t ->
                           Forall (gated h) t).
  { intros t. apply List.Forall_impl. intros x. apply gated_set_Backends. }
  assert (Hstate : Forall (gated h)
            (if negb (String.eqb (StateFile (set_Backends h B)) "")
             then snd (SaveState (set_Backends h B) w) else [])).
  { destruct (String.eqb_spec (StateFile (set_Backends h B)) "") as [E|E];
      [constructor|]. apply Hall, SaveState_gated, E. }
  pose proof (SaveConfiguration_gated (set_Backends h B) w) as Hconf.
  destruct (SaveConfiguration (set_Backends h B) w) as [[e|] t]; simpl in *;
    rewrite !Forall_app; repeat split; auto.
  apply Hall, apply_change_gated.
Qed.

(** A pass changes nothing of the reconciler but the applied snapshot. *)
Lemma tick_on_frame (h : HAProxy) (w : World) (B : HAProxyBackendSlice) :
  Configuration (fst (tick_on h w B)) = Configuration h /\
  Services (fst (tick_on h w B)) = Services h /\
  StateFile (fst (tick_on h w B)) = StateFile h /\
  WriteInterval (fst (tick_on h w B)) = WriteInterval h /\
  (Backends (fst (tick_on h w B)) = Backends h \/
   Backends (fst (tick_on h w B)) = B /\ length B = length (Services h)).
Proof.
  unfold tick_on.
  destruct (Nat.eq_dec (length B) (length (Services h))) as [Hl|Hl].
  - destruct (isBackendsModified h B) as [[[m r] cmds] [e|]];
      [repeat split; auto|].
    destruct m; [|repeat split; auto].
    destruct (SaveConfiguration _ w) as [[e|] t]; repeat split; auto.
  - rewrite (isBackendsModified_count h B Hl). repeat split; auto.
Qed.

Lemma gated_ext (h h' : HAProxy) (e : Event) :
  Configuration h' = Configuration h -> StateFile h' = StateFile h ->
  gated h' e -> gated h e.
Proof. intros HC HS. destruct e; simpl; rewrite ?HC, ?HS; auto. Qed.

Lemma loop_gated (ws : list World) :
  forall h,
    Forall (gated h) (snd (loop h ws)) /\
    Configuration (fst (loop h ws)) = Configuration h /\
    Services (fst (loop h ws)) = Services h /\
    StateFile (fst (loop h ws)) = StateFile h /\
    WriteInterval (fst (loop h ws)) = WriteInterval h /\
    (Backends (fst (loop h ws)) = Backends h \/
     length (Backends (fst (loop h ws))) = length (Services h)).
Proof.
  induction ws as [|w ws IH]; intros h; simpl; [repeat split; auto|].
  pose proof (tick_on_gated h w (getAllBackends h w)) as Hg.
  pose proof (tick_on_frame h w (getAllBackends h w)) as Hf.
  unfold tick. destruct (tick_on h w (getAllBackends h w)) as [h1 t1].
  simpl in Hg, Hf. destruct Hf as (HC & HSv & HSf & HW & HB).
  specialize (IH h1). destruct (loop h1 ws) as [h2 t2]. simpl in *.
  destruct IH as (Hg2 & HC2 & HSv2 & HSf2 & HW2 & HB2).
  repeat split; try congruence.
  - rewrite Forall_app. split; [exact Hg|].
    eapply List.Forall_impl; [|exact Hg2].
    intros e. now apply gated_ext.
  - destruct HB2 as [HB2|HB2]; [|right; congruence].
    rewrite HB2. destruct HB as [HB|[HB HL]]; [now left|right; congruence].
Qed.

(** X7.  The gates hold over a whole run.  [Run] first stats, and at most
    reads, the state file; after that every I/O action is a write of the
    configured state file (only when one is configured), a write of the
    configured config file (only under do_writes), a run of the configured
    reload command (only under do_reloads), or a use of the configured admin
    socket (only under do_socket).  The run leaves the configuration, the
    services, the state file path and the interval as they were. *)
Theorem run_respects_gates (h : HAProxy) (w0 w1 : World) (ws : list World) :
  (exists t0 t,
     snd (Run h w0 w1 ws) = t0 ++ t /\
     Forall (loads h) t0 /\ Forall (gated h) t) /\
  Configuration (fst (Run h w0 w1 ws)) = Configuration h /\
  Services (fst (Run h w0 w1 ws)) = Services h /\
  StateFile (fst (Run h w0 w1 ws)) = StateFile h /\
  WriteInterval (fst (Run h w0 w1 ws)) = WriteInterval h.
Proof.
  unfold Run.
  assert (HL : Forall (loads h) (snd (LoadState h w0)) /\
               Configuration (fst (fst (LoadState h w0))) = Configuration h /\
               Services (fst (fst (LoadState h w0))) = Services h /\
               StateFile (fst (fst (LoadState h w0))) = StateFile h /\
               WriteInterval (fst (fst (LoadState h w0))) = WriteInterval h).
  { unfold LoadState, loads.
    destruct (os_Stat w0 _);
      [destruct (_ <? _);
         [|destruct (ioutil_ReadFile w0 _);
             [destruct (json_Unmarshal w0 _ _)|]]|];
      cbn; (split; [|repeat split; reflexivity]);
      repeat (constructor; [first [left; reflexivity|right; reflexivity]|]);
      constructor. }
  destruct (LoadState h w0) as [[h0 e0] t0]. simpl in HL.
  destruct HL as (Ht0 & HC & HSv & HSf & HW).
  pose proof (loop_gated (w1 :: ws) h0) as HG.
  destruct (loop h0 (w1 :: ws)) as [h' t]. simpl in HG |- *.
  destruct HG as (Hg & HC' & HSv' & HSf' & HW' & _).
  split; [|repeat split; congruence].
  exists t0, t. repeat split; auto.
  eapply List.Forall_impl; [|exact Hg]. intros e. now apply gated_ext.
Qed.

Lemma reloadHAProxyDaemon_trace (h : HAProxy) (w : World) :
  snd (reloadHAProxyDaemon h w)
  = if DoReloads (Configuration h) then [reload_event h] else [].
Proof.
  unfold reloadHAProxyDaemon, reload_event. destruct (DoReloads _); [|reflexivity].
  destruct (exec_Run w _ _); reflexivity.
Qed.

Lemma changeBackendsStateBySocket_off (h : HAProxy) (w : World)
    (cmds : list string) :
  DoSocket (Configuration h) = false ->
  changeBackendsStateBySocket h w cmds = (None, []).
Proof. intros H. unfold changeBackendsStateBySocket. now rewrite H. Qed.

(** X8.  A pass does its I/O in one order, each part under its own
    condition: first the state file (when the Differ reports a modification
    and a state file is configured), then the config file (when modified),
    then the admin socket (when the config write did not fail, no restart is
    needed and do_socket is set), and last one reload, when the config
    write did not fail, do_reloads is set, and a restart is needed or
    do_socket is off or the socket pass returned an error.  So a failed
    config write ends the pass, HAProxy is reloaded at most once a pass and
    as its last action, and a Structural diff never uses the socket. *)
Theorem tick_does_write_socket_reload_in_order (h : HAProxy) (w : World)
    (B : HAProxyBackendSlice) :
  let '(m, r, cmds, _) := isBackendsModified h B in
  let h' := set_Backends h B in
  let written := m && negb (failed (fst (SaveConfiguration h' w))) in
  let by_socket := written && negb r && DoSocket (Configuration h) in
  let reloads :=
    written && DoReloads (Configuration h)
    && (r || negb (DoSocket (Configuration h))
        || failed (fst (changeBackendsStateBySocket h' w cmds))) in
  snd (tick_on h w B)
  = (if m && negb (String.eqb (StateFile h) "")
     then snd (SaveState h' w) else [])
    ++ (if m then snd (SaveConfiguration h' w) else [])
    ++ (if by_socket then snd (changeBackendsStateBySocket h' w cmds) else [])
    ++ (if reloads then [reload_event h] else []).
Proof.
  destruct (Nat.eq_dec (length B) (length (Services h))) as [Hl|Hl].
  2:{ rewrite (isBackendsModified_count h B Hl).
      unfold tick_on. now rewrite (isBackendsModified_count h B Hl). }
  pose proof (isBackendsModified_no_error h B Hl) as He.
  unfold tick_on.
  destruct (isBackendsModified h B) as [[[m r] cmds] e]. simpl in He. subst e.
  destruct m; [|reflexivity]. cbn [andb negb].
  change (StateFile (set_Backends h B)) with (StateFile h).
  destruct (SaveConfiguration (set_Backends h B) w) as [[e|] tc] eqn:Ec;
    cbn [fst snd failed negb andb]; [now rewrite !app_nil_r|].
  f_equal. f_equal. unfold apply_change.
  rewrite reloadHAProxyDaemon_trace.
  change (Configuration (set_Backends h B)) with (Configuration h).
  change (reload_event (set_Backends h B)) with (reload_event h).
  destruct r; cbn [negb andb orb].
  - now destruct (DoReloads (Configuration h)).
  - destruct (DoSocket (Configuration h)) eqn:Es; cbn [negb andb orb].
    + rewrite andb_false_r.
      destruct (changeBackendsStateBySocket (set_Backends h B) w cmds)
        as [[e|] ts]; cbn [fst snd failed].
      * now rewrite andb_true_r.
      * now rewrite andb_false_r, app_nil_r.
    + rewrite (changeBackendsStateBySocket_off (set_Backends h B) w cmds Es).
      cbn. destruct (DoReloads (Configuration h)); reflexivity.
Qed.

(** X9.  After any number of passes the applied snapshot is the one the
    passes started from or the candidate the Assembler produced in one of
    them; in the second case it has one backend per service. *)
Theorem applied_snapshot_is_a_candidate (h : HAProxy) (ws : list World) :
  Backends (fst (loop h ws)) = Backends h \/
  exists w, In w ws /\
    Backends (fst (loop h ws)) = getAllBackends h w /\
    length (Backends (fst (loop h ws))) = length (Services h).
Proof.
  revert h. induction ws as [|w ws IH]; intros h; simpl; [now left|].
  pose proof (tick_on_frame h w (getAllBackends h w)) as Hf.
  unfold tick. destruct (tick_on h w (getAllBackends h w)) as [h1 t1].
  simpl in Hf. destruct Hf as (HC & HSv & HSf & HW & HB).
  specialize (IH h1). destruct (loop h1 ws) as [h2 t2]. simpl in *.
  destruct IH as [IH|(w' & Hin & Hb & Hlen)].
  - rewrite IH. destruct HB as [HB|[HB HL]]; [now left|].
    right. exists w. repeat split; auto. congruence.
  - right. exists w'. split; [now right|]. split; [|congruence].
    rewrite Hb. apply getAllBackends_ext; [exact HSv|reflexivity].
Qed.

(** ** The socket pass *)

Lemma socket_commands_shape (w : World) (commands : list string) :
  forall i,
    exists n tail,
      (n <= length commands)%nat /\
      (tail = [] \/ exists c, tail = [EvConnWrite c] /\ nth_error commands n = Some c) /\
      snd (socket_commands w i commands)
      = exchange (firstn n commands) ++ tail ++ [EvConnClose] /\
      (forall j, (S j < n + length tail)%nat ->
         conn_Write w (i + j) (nth j commands "") = None /\
         conn_Read w (i + j) = (LF, None)) /\
      (forall j, (j < n)%nat -> conn_Write w (i + j) (nth j commands "") = None) /\
      (tail <> [] -> conn_Write w (i + n) (nth n commands "") <> None) /\
      (tail = [] -> (n < length commands)%nat ->
         exists j, n = S j /\ conn_Read w (i + j) <> (LF, None)).
Proof.
  induction commands as [|c cs IH]; intros i; simpl.
  - exists 0%nat, [].
    split; [lia|]. split; [now left|]. split; [reflexivity|].
    split; [simpl; intros; lia|]. split; [intros; lia|].
    split; [congruence|intros; lia].
  - destruct (conn_Write w i c) as [ew|] eqn:Ew.
    + exists 0%nat, [EvConnWrite c].
      split; [lia|]. split; [right; exists c; now split|].
      split; [reflexivity|].
      split; [simpl; intros; lia|]. split; [intros; lia|].
      split; [intros _; rewrite Nat.add_0_r, Ew; discriminate|discriminate].
    + assert (Hstop : forall s e,
                conn_Read w i = (s, e) -> (s, e) <> (LF, None) ->
                exists n tail,
                  (n <= S (length cs))%nat /\
                  (tail = [] \/ exists c0, tail = [EvConnWrite c0] /\
                                  nth_error (c :: cs) n = Some c0) /\
                  [EvConnWrite c; EvConnRead; EvConnClose]
                  = exchange (firstn n (c :: cs)) ++ tail ++ [EvConnClose] /\
                  (forall j, (S j < n + length tail)%nat ->
                     conn_Write w (i + j) (nth j (c :: cs) "") = None /\
                     conn_Read w (i + j) = (LF, None)) /\
                  (forall j, (j < n)%nat ->
                     conn_Write w (i + j) (nth j (c :: cs) "") = None) /\
                  (tail <> [] ->
                     conn_Write w (i + n) (nth n (c :: cs) "") <> None) /\
                  (tail = [] -> (n < S (length cs))%nat ->
                     exists j, n = S j /\ conn_Read w (i + j) <> (LF, None))).
      { intros s e Er Hbad. exists 1%nat, [].
        split; [lia|]. split; [now left|]. split; [reflexivity|].
        split; [simpl; intros; lia|].
        split; [intros j Hj; assert (j = 0)%nat as -> by lia;
                now rewrite Nat.add_0_r|].
        split; [congruence|].
        intros _ _. exists 0%nat. rewrite Nat.add_0_r, Er. now split. }
      destruct (conn_Read w i) as [s [e|]] eqn:Er.
      * apply (Hstop s (Some e) eq_refl). discriminate.
      * destruct (String.eqb_spec s LF) as [->|Hs]; cbn [negb].
        -- destruct (IH (S i)) as (n & tail & Hn & Ht & E & Hack & Hw & Hf & He).
           destruct (socket_commands w (S i) cs) as [e t]. simpl in E.
           exists (S n), tail.
           split; [lia|]. split; [exact Ht|].
           split; [simpl; now rewrite E|].
           split; [|split; [|split]].
           ++ intros [|j] Hj; [now rewrite Nat.add_0_r|].
              rewrite Nat.add_succ_r. apply (Hack j). simpl in Hj. lia.
           ++ intros [|j] Hj; [now rewrite Nat.add_0_r|].
              rewrite Nat.add_succ_r. apply Hw. lia.
           ++ intros Hne. rewrite Nat.add_succ_r. now apply Hf.
           ++ intros Htl Hlt. destruct (He Htl) as (j & -> & Hj); [lia|].
              exists (S j). rewrite Nat.add_succ_r. now split.
        -- apply (Hstop s None eq_refl). congruence.
Qed.

Lemma socket_commands_error (w : World) (commands : list string) :
  forall i e,
    fst (socket_commands w i commands) = Some e ->
    exists j, (j < length commands)%nat /\
      (conn_Write w (i + j) (nth j commands "") = Some e \/
       snd (conn_Read w (i + j)) = Some e).
Proof.
  induction commands as [|c cs IH]; intros i e; simpl; [discriminate|].
  destruct (conn_Write w i c) as [ew|] eqn:Ew.
  - intros [= <-]. exists 0%nat. rewrite Nat.add_0_r. split; [lia|now left].
  - destruct (conn_Read w i) as [s [er|]] eqn:Er.
    + intros [= <-]. exists 0%nat. rewrite Nat.add_0_r, Er.
      split; [lia|now right].
    + destruct (negb (String.eqb s LF)); [discriminate|].
      specialize (IH (S i) e).
      destruct (socket_commands w (S i) cs) as [e' t]. simpl in *.
      intros He. destruct (IH He) as (j & Hj & H).
      exists (S j). rewrite Nat.add_succ_r. split; [lia|exact H].
Qed.

(** X10.  The socket pass under do_socket.  When the dial fails its error is
    returned and nothing else is done.  Otherwise the commands are written
    in their order, none skipped, each successful write followed by one
    read; every exchange but the last was answered by a lone newline; the
    pass stops before the commands are exhausted only at a write that fails
    or after a read that fails or brings another response; and the
    connection is closed, once, as the last action of the pass on every
    path.  An error the pass returns is the error of the dial, of a write or
    of a read. *)
Theorem socket_pass_protocol (h : HAProxy) (w : World) (commands : list string) :
  DoSocket (Configuration h) = true ->
  let path := SocketFilePath (Configuration h) in
  (forall e, net_Dial w path = Some e ->
     changeBackendsStateBySocket h w commands = (Some e, [EvDial path])) /\
  (net_Dial w path = None ->
     exists n tail,
       (n <= length commands)%nat /\
       (tail = [] \/
        exists c, tail = [EvConnWrite c] /\ nth_error commands n = Some c) /\
       snd (changeBackendsStateBySocket h w commands)
       = EvDial path :: exchange (firstn n commands) ++ tail ++ [EvConnClose] /\
       (forall j, (S j < n + length tail)%nat ->
          conn_Write w j (nth j commands "") = None /\
          conn_Read w j = (LF, None)) /\
       (tail <> [] -> conn_Write w n (nth n commands "") <> None) /\
       (tail = [] -> (n < length commands)%nat ->
          exists j, n = S j /\ conn_Read w j <> (LF, None))) /\
  (forall e, fst (changeBackendsStateBySocket h w commands) = Some e ->
     net_Dial w path = Some e \/
     exists j, (j < length commands)%nat /\
       (conn_Write w j (nth j commands "") = Some e \/
        snd (conn_Read w j) = Some e)).
Proof.
  intros Hs path. unfold changeBackendsStateBySocket. rewrite Hs. fold path.
  split; [|split].
  - intros e ->. reflexivity.
  - intros ->.
    destruct (socket_commands_shape w commands 0%nat)
      as (n & tail & Hn & Ht & E & Hack & _ & Hf & He).
    destruct (socket_commands w 0%nat commands) as [e t]. simpl in *.
    exists n, tail. repeat split; auto; try apply Hack; auto.
    now rewrite E.
  - intros e. destruct (net_Dial w path) as [ed|]; [intros [= <-]; now left|].
    pose proof (socket_commands_error w commands 0%nat e) as H.
    destruct (socket_commands w 0%nat commands) as [e' t]. simpl in *.
    intros He. right. exact (H He).
Qed.

Lemma socket_pass_protocol_witness :
  let h := set_Backends ex_applied
             (getAllBackends ex_applied (ex_world [ex_host true 10] LF false)) in
  changeBackendsStateBySocket h (ex_world_no_socket [ex_host true 10])
    ["disable server web/a"]
  = (Some "connection refused", [EvDial "/var/run/haproxy.sock"]) /\
  (exists n tail,
     snd (changeBackendsStateBySocket h
            (ex_world [ex_host true 10] unknown_command false)
            ["disable server web/a"; "enable server web/b"])
     = EvDial "/var/run/haproxy.sock"
       :: exchange (firstn n ["disable server web/a"; "enable server web/b"])
       ++ tail ++ [EvConnClose]).
Proof.
  intros h.
  destruct (socket_pass_protocol h (ex_world_no_socket [ex_host true 10])
              ["disable server web/a"]) as (H1 & _ & _); [reflexivity|].
  destruct (socket_pass_protocol h
              (ex_world [ex_host true 10] unknown_command false)
              ["disable server web/a"; "enable server web/b"])
    as (_ & H2 & _); [reflexivity|].
  split; [apply H1; reflexivity|].
  destruct H2 as (n & tail & _ & _ & E & _); [reflexivity|].
  exists n, tail. exact E.
Defined.

(** ** Loading the state file: errors *)

(** X11.  [LoadState] returns an error only for a state file that is within
    its 2000ms and that could not be read or decoded, and the error is that
    of the failing call; a file that is missing or cannot be examined is not
    an error.  When the read fails the snapshot is untouched; when decoding
    fails, what the decoder left in the snapshot is kept all the same. *)
Theorem LoadState_error_cases (h : HAProxy) (w : World) :
  (forall e, os_Stat w (StateFile h) = inr e ->
     LoadState h w = (h, None, [EvStat (StateFile h)])) /\
  (forall e, snd (fst (LoadState h w)) = Some e ->
     exists mtime,
       os_Stat w (StateFile h) = inl mtime /\
       time_Now w - mtime <= 2000 * Millisecond /\
       (ioutil_ReadFile w (StateFile h) = inr e \/
        exists file,
          ioutil_ReadFile w (StateFile h) = inl file /\
          snd (json_Unmarshal w file (Backends h)) = Some e)) /\
  (forall e, ioutil_ReadFile w (StateFile h) = inr e ->
     fst (fst (LoadState h w)) = h) /\
  (forall mtime file,
     os_Stat w (StateFile h) = inl mtime ->
     time_Now w - mtime <= 2000 * Millisecond ->
     ioutil_ReadFile w (StateFile h) = inl file ->
     LoadState h w
     = (set_Backends h (fst (json_Unmarshal w file (Backends h))),
        snd (json_Unmarshal w file (Backends h)),
        [EvStat (StateFile h); EvReadFile (StateFile h)])).
Proof.
  unfold LoadState. repeat split.
  - intros e ->. reflexivity.
  - intros e. destruct (os_Stat w (StateFile h)) as [mtime|e0]; [|discriminate].
    destruct (Z.ltb_spec (mtime + 2000 * Millisecond) (time_Now w));
      [discriminate|].
    intros He. exists mtime. split; [reflexivity|]. split; [lia|].
    destruct (ioutil_ReadFile w (StateFile h)) as [file|er].
    + right. exists file. split; [reflexivity|].
      destruct (json_Unmarshal w file (Backends h)). exact He.
    + left. simpl in He. congruence.
  - intros e ->. destruct (os_Stat w (StateFile h)); [|reflexivity].
    destruct (_ <? _); reflexivity.
  - intros mtime file -> Hage ->.
    destruct (Z.ltb_spec (mtime + 2000 * Millisecond) (time_Now w)); [lia|].
    destruct (json_Unmarshal w file (Backends h)). reflexivity.
Qed.

Lemma LoadState_error_cases_witness :
  LoadState ex_init (ex_world [] LF false)
    = (ex_init, None, [EvStat "/var/lib/synapse/state.json"]) /\
  Backends (fst (fst (LoadState ex_init (ex_world_bad_state ex_reconfigured))))
    = ex_reconfigured /\
  snd (fst (LoadState ex_init (ex_world_bad_state ex_reconfigured)))
    = Some "unexpected end of JSON input".
Proof.
  destruct (LoadState_error_cases ex_init (ex_world [] LF false))
    as (H1 & _ & _ & _).
  destruct (LoadState_error_cases ex_init (ex_world_bad_state ex_reconfigured))
    as (_ & _ & _ & H4).
  split; [apply (H1 "no such file or directory"); reflexivity|].
  rewrite (H4 0 "[{"); [split; reflexivity|reflexivity| |reflexivity].
  vm_compute. discriminate.
Defined.

(** ** The name of a watched service *)

Lemma replace_slashes_length (s : string) :
  String.length (replace_slashes s) = String.length s.
Proof. induction s as [|c s IH]; simpl; [reflexivity|now rewrite IH]. Qed.

Lemma replace_slashes_clean (s : string) : has_slash (replace_slashes s) = false.
Proof.
  induction s as [|c s IH]; simpl; [reflexivity|]. rewrite IH, orb_false_r.
  destruct (Ascii.eqb c "/") eqn:E; [reflexivity|exact E].
Qed.

Lemma replace_slashes_id (s : string) :
  has_slash s = false -> replace_slashes s = s.
Proof.
  induction s as [|c s IH]; simpl; [reflexivity|].
  intros H. apply orb_false_iff in H. destruct H as [Hc Hs].
  now rewrite Hc, IH.
Qed.

(** X12.  [GetServiceName] panics on the empty path and on no other; on a
    path of first byte [c] and rest [p] it returns [p] with every "/"
    replaced by "_", whatever [c] is: the name has no "/", is one byte
    shorter than the path, and is the same for all paths whose rests differ
    only in "/" against "_". *)
Theorem GetServiceName_drops_first_byte_and_slashes (path : string) :
  (GetServiceName path = None <-> path = "") /\
  (forall c p, path = String c p ->
     GetServiceName path = Some (replace_slashes p)) /\
  (forall name, GetServiceName path = Some name ->
     has_slash name = false /\
     S (String.length name) = String.length path /\
     forall path', replace_slashes path' = replace_slashes path ->
       GetServiceName path' = Some name).
Proof.
  unfold GetServiceName. repeat split.
  - destruct path; [reflexivity|discriminate].
  - intros ->. reflexivity.
  - intros c p ->. reflexivity.
  - destruct path as [|c p]; [discriminate|]. simpl in H. injection H as <-.
    apply replace_slashes_clean.
  - destruct path as [|c p]; [discriminate|]. simpl in H. injection H as <-.
    simpl. now rewrite replace_slashes_length.
  - intros path' ->. exact H.
Qed.

Lemma GetServiceName_drops_first_byte_and_slashes_witness :
  GetServiceName "/services/web" = Some "services_web" /\
  GetServiceName "/services_web" = Some "services_web" /\
  GetServiceName "web/api" = Some "eb_api".
Proof.
  destruct (GetServiceName_drops_first_byte_and_slashes "/services/web")
    as (_ & H2 & H3).
  destruct (GetServiceName_drops_first_byte_and_slashes "web/api")
    as (_ & H2' & _).
  assert (E : GetServiceName "/services/web" = Some "services_web")
    by (apply (H2 "/"%char "services/web"); reflexivity).
  split; [exact E|]. split.
  - destruct (H3 "services_web" E) as (_ & _ & H). apply H. reflexivity.
  - apply (H2' "w"%char "eb/api"). reflexivity.
Defined.

(** ** The watcher: stopping, the wait group, restarting *)

Section ZkMore.
Context {RM : Zk.ReportMap}.







End ZkMore.




(** ** Service reports *)

Lemma AvailableUnavailable_fold (reports : list Synapse.Report) :
  forall a u,
    fold_left
      (fun '(available, unavailable) report =>
         if Synapse.counts_as_available report then (available + 1, unavailable)
         else (available, unavailable + 1))
      reports (a, u)
    = (a + Z.of_nat (length (List.filter Synapse.counts_as_available reports)),
       u + Z.of_nat (length (List.filter
                               (fun r => negb (Synapse.counts_as_available r))
                               reports))).
Proof.
  induction reports as [|r reports IH]; intros a u; simpl.
  - now rewrite !Z.add_0_r.
  - destruct (Synapse.counts_as_available r); simpl; rewrite IH; f_equal; lia.
Qed.

Lemma HasActiveServers_filter (reports : list Synapse.Report) :
  Synapse.HasActiveServers reports
  = (0 <? Z.of_nat (length (List.filter Synapse.counts_as_available reports))).
Proof.
  induction reports as [|r reports IH]; simpl; [reflexivity|].
  destruct (Synapse.counts_as_available r); simpl; [|exact IH].
  symmetry. apply Z.ltb_lt. lia.
Qed.

(** X16.  [AvailableUnavailable] counts every report once: the two counts
    are not negative and add up to the number of reports, a report counting
    as available when its [Available] is nil or true.  [HasActiveServers] is
    true exactly when the available count is positive, so it is false on the
    empty list and on lists whose reports are all marked unavailable, and on
    reports that all carry a flag it is the answer of the earlier version of
    the function. *)
Theorem report_counts_agree (reports : list Synapse.Report) :
  let '(available, unavailable) := Synapse.AvailableUnavailable reports in
  0 <= available /\ 0 <= unavailable /\
  available + unavailable = Z.of_nat (length reports) /\
  Synapse.HasActiveServers reports = (0 <? available) /\
  (Synapse.HasActiveServers reports = false <->
   Forall (fun r => Synapse.Available r = Some false) reports) /\
  forall flags,
    reports = map (fun b => {| Synapse.Available := Some b |}) flags ->
    Synapse.HasActiveServers reports = Synapse.HasActiveServers_bool flags.
Proof.
  unfold Synapse.AvailableUnavailable. rewrite AvailableUnavailable_fold.
  rewrite !Z.add_0_l. split; [lia|]. split; [lia|]. split; [|split; [|split]].
  - induction reports as [|r reports IH]; simpl; [reflexivity|].
    destruct (Synapse.counts_as_available r); simpl; lia.
  - apply HasActiveServers_filter.
  - induction reports as [|r reports IH]; simpl; [split; auto|].
    unfold Synapse.counts_as_available at 1.
    destruct r as [[[|]|]]; simpl.
    + split; [discriminate|]. intros H. inversion H; subst. discriminate.
    + rewrite IH. split; [now constructor|]. intros H. now inversion H.
    + split; [discriminate|]. intros H. inversion H; subst. discriminate.
  - intros flags ->. induction flags as [|b flags IH]; simpl; [reflexivity|].
    unfold Synapse.counts_as_available. simpl. now destruct b.
Qed.

(** ** Preparing a service *)




(** X18.  [Init] parses the server options under the test it parses the
    router options under, the length of [RouterOptions]: without router
    options neither block is parsed and the typed options stay as they were,
    whatever [ServerOptions] holds; with router options both are parsed, the
    server options also when empty, and a failure of either fails [Init].
    On success the watcher is set, an empty name has become the watcher's
    service name and a given name is kept, and an empty [ServerSort] has
    become [SORT_RANDOM]. *)
Theorem Init_parses_server_options_with_router_options
    (x : Synapse.Externals) (n : Z) (s : Synapse.Service) :
  let '(s', _, e) := Synapse.Init x n s in
  (Synapse.RouterOptions s = "" ->
   Synapse.typedRouterOptions s' = Synapse.typedRouterOptions s /\
   Synapse.typedServerOptions s' = Synapse.typedServerOptions s) /\
  (e = None ->
   (exists watcher,
      Synapse.WatcherFromJson x (Synapse.Watcher s) = inl watcher /\
      Synapse.typedWatcher s' = Some watcher /\
      Synapse.Name s'
      = if String.eqb (Synapse.Name s) ""
        then Synapse.watcher_GetServiceName x watcher else Synapse.Name s) /\
   Synapse.ServerSort s'
   = (if String.eqb (Synapse.ServerSort s) ""
      then Synapse.SORT_RANDOM x else Synapse.ServerSort s) /\
   (Synapse.RouterOptions s <> "" ->
    Synapse.ParseRouterOptions x (Synapse.RouterOptions s)
      = inl (default "" (Synapse.typedRouterOptions s')) /\
    Synapse.typedRouterOptions s' <> None /\
    Synapse.ParseServerOptions x (Synapse.ServerOptions s)
      = inl (default "" (Synapse.typedServerOptions s')) /\
    Synapse.typedServerOptions s' <> None)).
Proof.
  unfold Synapse.Init, Synapse.Init_options. cbn.
  destruct (Synapse.WatcherFromJson x (Synapse.Watcher s)) as [watcher|ew];
    [|split; [auto|discriminate]].
  destruct (Synapse.watcher_Init x watcher); [split; [auto|discriminate]|].
  destruct (Synapse.RouterOptions s) as [|c r] eqn:ER.
  - destruct (String.eqb (Synapse.Name s) "");
      repeat (progress (cbn; rewrite ?ER));
      destruct (String.eqb (Synapse.ServerSort s) ""); cbn;
      (split; [auto|]); intros _; (split; [eauto|]); (split; [reflexivity|]);
      intros H; now contradiction H.
  - destruct (String.eqb (Synapse.Name s) "");
      repeat (progress (cbn; rewrite ?ER));
      (destruct (Synapse.ParseRouterOptions x (String c r)) as [tr|er];
         [|cbn; split; [discriminate|discriminate]]);
      repeat (progress (cbn; rewrite ?ER));
      (destruct (Synapse.ParseServerOptions x (Synapse.ServerOptions s))
         as [ts|es]; [|cbn; split; [discriminate|discriminate]]);
      cbn; destruct (String.eqb (Synapse.ServerSort s) ""); cbn;
      (split; [discriminate|]); intros _; (split; [eauto|]);
      (split; [reflexivity|]); intros _; repeat split; discriminate.
Qed.

Lemma Init_parses_server_options_with_router_options_witness :
  let '(s', _, e) := Synapse.Init ex_externals 1 ex_svc in
  e = None /\ Synapse.typedServerOptions s' = None /\
  Synapse.Name s' = "services_web" /\ Synapse.ServerSort s' = "random".
Proof.
  pose proof (Init_parses_server_options_with_router_options
                ex_externals 1 ex_svc) as H.
  destruct (Synapse.Init ex_externals 1 ex_svc) as [[s' n'] e] eqn:E.
  assert (He : e = None) by (cbv in E; now inversion E).
  destruct H as [H1 H2].
  destruct (H1 eq_refl) as [_ Hso].
  destruct (H2 He) as ((watcher & Hw & _ & Hn) & Hs & _).
  split; [exact He|]. split; [exact Hso|]. split.
  - rewrite Hn. cbn in Hw |- *. reflexivity.
  - exact Hs.
Defined.

(** ** The nerve service *)

Lemma ramp_all_checked :
  List.forallb
    (fun i => List.forallb (fun w => ramp_checked i (Z.of_nat w)) (seq 0 256))
    (seq 0 13) = true.
Proof. vm_compute. reflexivity. Qed.

Lemma ramp_checked_at (i : nat) (w : Z) :
  (i <= 12)%nat -> 0 <= w <= 255 -> ramp_checked i w = true.
Proof.
  intros Hi Hw. pose proof ramp_all_checked as H.
  rewrite List.forallb_forall in H.
  specialize (H i). rewrite List.in_seq in H.
  assert (Hi' : (0 <= i < 0 + 13)%nat) by lia.
  specialize (H Hi'). rewrite List.forallb_forall in H.
  specialize (H (Z.to_nat w)). rewrite List.in_seq, Z2Nat.id in H by lia.
  apply H. lia.
Qed.

Lemma ramp_mono (w : Z) (i j : nat) :
  0 <= w <= 255 -> (i <= j <= 12)%nat -> ramp i w <= ramp j w.
Proof.
  intros Hw [Hij Hj]. induction Hij as [|j Hij IH]; [lia|].
  etransitivity; [apply IH; lia|].
  pose proof (ramp_checked_at j w ltac:(lia) Hw) as H.
  unfold ramp_checked in H. rewrite !andb_true_iff in H.
  destruct H as [[[_ _] H] _]. apply Z.leb_le in H.
  rewrite Nat.min_r in H by lia. exact H.
Qed.

Lemma CurrentWeight_ramp (s : Nerve.Service) :
  0 <= Nerve.currentWeightIndex s ->
  Nerve.currentStatus s = Some None ->
  Nerve.CurrentWeight s
  = Some (ramp (Z.to_nat (Z.min (Nerve.currentWeightIndex s) 12))
               (Nerve.Weight s)).
Proof.
  intros Hi Hs. unfold Nerve.CurrentWeight. rewrite Hs.
  change (Z.of_nat (length Nerve.weights) - 1) with 12.
  change (Z.to_nat 12) with 12%nat.
  destruct (12 <? Nerve.currentWeightIndex s) eqn:E.
  - apply Z.ltb_lt in E. rewrite Z.min_r by lia. reflexivity.
  - apply Z.ltb_ge in E. rewrite Z.min_l by lia.
    destruct (Nerve.currentWeightIndex s <? 0) eqn:E0;
      [apply Z.ltb_lt in E0; lia|].
    unfold ramp.
    assert (Hlt : (Z.to_nat (Nerve.currentWeightIndex s) < length Nerve.weights)%nat)
      by (change (length Nerve.weights) with 13%nat; lia).
    apply lookup_lt_is_Some_2 in Hlt. destruct Hlt as [step ->].
    reflexivity.
Qed.

(** X19.  [CurrentWeight] of a service whose weight is a [uint8] and whose
    ramp index is not negative.  Without a status, or with a failing one, it
    is 0.  For an available service it is never 0: the floating-point
    computation gives the share [weights[index] / 233] of [Weight] rounded
    up, and 1 at least, so it lies between 1 and the weight, it never
    decreases when the index grows, and from index 12 on it is the whole
    weight (1 for weight 0). *)
Theorem CurrentWeight_ramps_to_Weight (s : Nerve.Service)
    (HWeight : 0 <= Nerve.Weight s <= 255)
    (Hindex : 0 <= Nerve.currentWeightIndex s) :
  match Nerve.currentStatus s with
  | Some None =>
      exists res,
        Nerve.CurrentWeight s = Some res /\
        res = share (Z.to_nat (Z.min (Nerve.currentWeightIndex s) 12))
                    (Nerve.Weight s) /\
        1 <= res <= Z.max 1 (Nerve.Weight s) /\
        (12 <= Nerve.currentWeightIndex s -> res = Z.max 1 (Nerve.Weight s)) /\
        forall index, Nerve.currentWeightIndex s <= index ->
          exists res',
            Nerve.CurrentWeight (Nerve.set_currentWeightIndex s index)
              = Some res' /\ res <= res'
  | _ => Nerve.CurrentWeight s = Some 0
  end.
Proof.
  destruct (Nerve.currentStatus s) as [[e|]|] eqn:Hs;
    [unfold Nerve.CurrentWeight; now rewrite Hs| |
     unfold Nerve.CurrentWeight; now rewrite Hs].
  set (i := Z.to_nat (Z.min (Nerve.currentWeightIndex s) 12)).
  assert (Hi : (i <= 12)%nat) by (unfold i; lia).
  pose proof (ramp_checked_at i _ Hi HWeight) as H.
  unfold ramp_checked in H. rewrite !andb_true_iff in H.
  destruct H as [[[[H1 H2] H3] _] H5].
  apply Z.eqb_eq in H1, H5. apply Z.leb_le in H2, H3.
  exists (ramp i (Nerve.Weight s)).
  split; [now apply CurrentWeight_ramp|]. split; [exact H1|].
  split; [lia|]. split.
  - intros H12. unfold i. rewrite Z.min_r by lia. exact H5.
  - intros index Hle. eexists. split.
    + apply CurrentWeight_ramp; cbn; [lia|exact Hs].
    + cbn. apply ramp_mono; [exact HWeight|]. unfold i. lia.
Qed.

Lemma CurrentWeight_ramps_to_Weight_witness :
  Nerve.CurrentWeight ex_nerve = Some 3 /\
  Nerve.CurrentWeight (Nerve.set_currentWeightIndex ex_nerve 40) = Some 100.
Proof.
  pose proof (CurrentWeight_ramps_to_Weight ex_nerve
                ltac:(cbn; lia) ltac:(cbn; lia)) as H.
  cbn [Nerve.currentStatus ex_nerve] in H.
  destruct H as (res & H & Hres & _). split.
  - rewrite H, Hres. reflexivity.
  - reflexivity.
Defined.

Lemma report_range_spec (x : Nerve.Externals) (required : bool)
    (status : option error) (order : list Nerve.Reporter) :
  forall reporters globalReported calls,
    NoDup order ->
    exists reporters',
      Nerve.report_range x required status order reporters globalReported calls
      = (reporters',
         globalReported
         + Z.of_nat (length (List.filter
                               (fun r => due required reporters r
                                         && delivered x status r) order)),
         calls ++ map (fun r => (r, status))
                      (List.filter (due required reporters) order)) /\
      forall r,
        reporters' !! r
        = if bool_decide (r ∈ order) && due required reporters r
          then Some (delivered x status r) else reporters !! r.
Proof.
  induction order as [|r0 rest IH]; intros m g calls Hnd.
  - exists m. cbn. rewrite Z.add_0_r, app_nil_r. split; [reflexivity|].
    intros r. reflexivity.
  - apply NoDup_cons in Hnd as [Hnotin Hnd].
    assert (Hskip : due required m r0 = false ->
      exists reporters',
        Nerve.report_range x required status rest m g calls
        = (reporters',
           g + Z.of_nat (length (List.filter
                                   (fun r => due required m r
                                             && delivered x status r)
                                   (r0 :: rest))),
           calls ++ map (fun r => (r, status))
                        (List.filter (due required m) (r0 :: rest))) /\
        forall r,
          reporters' !! r
          = if bool_decide (r ∈ r0 :: rest) && due required m r
            then Some (delivered x status r) else m !! r).
    { intros Hdue. destruct (IH m g calls Hnd) as (m' & E & Hm').
      exists m'. cbn [List.filter]. rewrite Hdue. cbn [andb]. split; [exact E|].
      intros r. rewrite Hm'. destruct (decide (r = r0)) as [->|Hne].
      - rewrite Hdue, !andb_false_r. reflexivity.
      - destruct (bool_decide (r ∈ rest)) eqn:Er.
        + apply bool_decide_eq_true in Er.
          rewrite (bool_decide_eq_true_2 (r ∈ r0 :: rest))
            by (apply elem_of_cons; right; exact Er).
          reflexivity.
        + apply bool_decide_eq_false in Er.
          rewrite (bool_decide_eq_false_2 (r ∈ r0 :: rest))
            by (apply not_elem_of_cons; split; [exact Hne|exact Er]).
          reflexivity. }
    cbn [Nerve.report_range].
    destruct (m !! r0) as [reported|] eqn:Em;
      [|apply Hskip; unfold due; now rewrite Em].
    destruct (required || negb reported) eqn:Edue;
      [|apply Hskip; unfold due; now rewrite Em].
    assert (Hdue0 : due required m r0 = true) by (unfold due; now rewrite Em).
    assert (Hsame : forall b r, r ∈ rest ->
              due required (<[r0 := b]> m) r = due required m r).
    { intros b r Hr. unfold due. rewrite lookup_insert_ne; [reflexivity|].
      intros ->. contradiction. }
    assert (Hf1 : forall b, List.filter (due required (<[r0 := b]> m)) rest
                            = List.filter (due required m) rest).
    { intros b. apply List.filter_ext_in. intros r Hr. apply Hsame.
      now apply list_elem_of_In. }
    assert (Hf2 : forall b,
              List.filter (fun r => due required (<[r0 := b]> m) r
                                    && delivered x status r) rest
              = List.filter (fun r => due required m r
                                      && delivered x status r) rest).
    { intros b. apply List.filter_ext_in. intros r Hr.
      rewrite Hsame; [reflexivity|]. now apply list_elem_of_In. }
    assert (Hmap : forall (b : bool) (m' : gmap Nerve.Reporter bool),
      delivered x status r0 = b ->
      (forall r, m' !! r
                 = if bool_decide (r ∈ rest) && due required (<[r0 := b]> m) r
                   then Some (delivered x status r) else <[r0 := b]> m !! r) ->
      forall r, m' !! r
                = if bool_decide (r ∈ r0 :: rest) && due required m r
                  then Some (delivered x status r) else m !! r).
    { intros b m' Hb Hm' r. rewrite Hm'. destruct (decide (r = r0)) as [->|Hne].
      - rewrite (bool_decide_eq_false_2 (r0 ∈ rest)) by exact Hnotin.
        rewrite (bool_decide_eq_true_2 (r0 ∈ r0 :: rest))
          by (apply elem_of_cons; left; reflexivity).
        rewrite Hdue0, Hb. cbn. now rewrite lookup_insert_eq.
      - rewrite lookup_insert_ne by congruence.
        destruct (bool_decide (r ∈ rest)) eqn:Er.
        + apply bool_decide_eq_true in Er. rewrite (Hsame b r Er).
          rewrite (bool_decide_eq_true_2 (r ∈ r0 :: rest))
            by (apply elem_of_cons; right; exact Er).
          reflexivity.
        + apply bool_decide_eq_false in Er.
          rewrite (bool_decide_eq_false_2 (r ∈ r0 :: rest))
            by (apply not_elem_of_cons; split; [exact Hne|exact Er]).
          reflexivity. }
    cbn [List.filter]. rewrite Hdue0. cbn [andb map].
    destruct (Nerve.reporter_Report x r0 status) as [err|] eqn:Erep.
    + assert (Hb : delivered x status r0 = false)
        by (unfold delivered; now rewrite Erep).
      rewrite Hb.
      destruct (IH (<[r0 := false]> m) g (calls ++ [(r0, status)]) Hnd)
        as (m' & E & Hm').
      exists m'. split; [|apply (Hmap false); [exact Hb|exact Hm']].
      rewrite E, Hf1, Hf2, <- app_assoc. reflexivity.
    + assert (Hb : delivered x status r0 = true)
        by (unfold delivered; now rewrite Erep).
      rewrite Hb.
      destruct (IH (<[r0 := true]> m) (g + 1) (calls ++ [(r0, status)]) Hnd)
        as (m' & E & Hm').
      exists m'. split; [|apply (Hmap true); [exact Hb|exact Hm']].
      rewrite E, Hf1, Hf2, <- app_assoc. cbn [length].
      do 2 f_equal. lia.
Qed.

Lemma filter_elem_of {A : Type} (f : A -> bool) (l : list A) (a : A) :
  a ∈ List.filter f l <-> a ∈ l /\ f a = true.
Proof. rewrite !list_elem_of_In. apply List.filter_In. Qed.

Lemma ex_nerve_visits :
  Nerve.visits [2%nat; 1%nat] (Nerve.typedReportersWithReported ex_nerve).
Proof.
  split.
  - apply NoDup_cons. split; [|apply NoDup_singleton].
    rewrite list_elem_of_singleton. discriminate.
  - intros r. cbn [Nerve.typedReportersWithReported ex_nerve].
    rewrite lookup_insert_is_Some, lookup_singleton_is_Some.
    rewrite elem_of_cons, list_elem_of_singleton.
    destruct (decide (1%nat = r)); intuition congruence.
Qed.

(** X20.  One pass of [reportAndTellIfAtLeastOneReported], in whatever order
    the range visits the reporters.  Before the first status nothing is sent
    and the answer is false.  Otherwise the status sent is the disabled
    error when the service is disabled and the current status if not; a
    required pass calls every reporter once, a replay calls once those whose
    last report failed and no other; afterwards the flag of a called
    reporter says whether this report was delivered and the other flags are
    as before; the answer is true exactly when some report was delivered. *)
Theorem report_pass_calls_due_reporters_once (x : Nerve.Externals)
    (order : list Nerve.Reporter) (s : Nerve.Service) (required : bool)
    (Hvisits : Nerve.visits order (Nerve.typedReportersWithReported s)) :
  let reporters := Nerve.typedReportersWithReported s in
  let '(s', result, calls) :=
    Nerve.reportAndTellIfAtLeastOneReported x order s required in
  match Nerve.currentStatus s with
  | None => s' = s /\ result = false /\ calls = []
  | Some current =>
      let status :=
        match Nerve.disabled s with Some d => Some d | None => current end in
      let called := List.filter (due required reporters) order in
      calls = map (fun r => (r, status)) called /\
      NoDup called /\
      (forall r, r ∈ called <->
                 if required then is_Some (reporters !! r)
                 else reporters !! r = Some false) /\
      (forall r, Nerve.typedReportersWithReported s' !! r
                 = if due required reporters r
                   then Some (delivered x status r) else reporters !! r) /\
      (result = true <->
       exists r, r ∈ called /\ Nerve.reporter_Report x r status = None)
  end.
Proof.
  destruct Hvisits as [Hnd Hkeys]. cbv zeta.
  unfold Nerve.reportAndTellIfAtLeastOneReported.
  destruct (Nerve.currentStatus s) as [current|]; [|auto].
  set (status := match Nerve.disabled s with
                 | Some d => Some d | None => current end).
  set (m := Nerve.typedReportersWithReported s) in *.
  destruct (report_range_spec x required status order m 0 [] Hnd)
    as (m' & E & Hm').
  rewrite E. cbn [Nerve.typedReportersWithReported
                  Nerve.set_typedReportersWithReported app].
  assert (Hdue : forall r, due required m r = true -> r ∈ order).
  { intros r Hr. apply Hkeys. unfold due in Hr.
    destruct (m !! r); [eauto|discriminate]. }
  split; [reflexivity|]. split; [|split; [|split]].
  - apply NoDup_ListNoDup, List.NoDup_filter, NoDup_ListNoDup, Hnd.
  - intros r. rewrite filter_elem_of, Hkeys. unfold due.
    destruct (m !! r) as [reported|]; destruct required; cbn.
    + split; [eauto|]. intros _. split; [eauto|reflexivity].
    + split.
      * intros [_ H]. now destruct reported.
      * intros [= ->]. split; [eauto|reflexivity].
    + split; [intros [_ H]; discriminate|]. intros [? H]. discriminate.
    + split; [intros [_ H]; discriminate|discriminate].
  - intros r. rewrite Hm'. destruct (due required m r) eqn:Er.
    + rewrite (bool_decide_eq_true_2 _ (Hdue r Er)). reflexivity.
    + now rewrite andb_false_r.
  - rewrite Z.ltb_lt. split.
    + intros Hpos.
      destruct (List.filter (fun r => due required m r && delivered x status r)
                            order) as [|r l] eqn:Ef; [cbn in Hpos; lia|].
      assert (Hin : In r (List.filter
                            (fun r => due required m r && delivered x status r)
                            order)) by (rewrite Ef; now left).
      apply List.filter_In in Hin as [Hin Hr].
      apply andb_true_iff in Hr as [Hr1 Hr2].
      exists r. split.
      * apply filter_elem_of. split; [now apply list_elem_of_In|exact Hr1].
      * unfold delivered in Hr2.
        destruct (Nerve.reporter_Report x r status); [discriminate|reflexivity].
    + intros (r & Hr & Hrep). apply filter_elem_of in Hr as [Hin Hr].
      assert (Hin' : In r (List.filter
                             (fun r => due required m r && delivered x status r)
                             order)).
      { apply List.filter_In. split; [now apply list_elem_of_In|].
        rewrite Hr. unfold delivered. now rewrite Hrep. }
      destruct (List.filter _ order); [destruct Hin'|cbn; lia].
Qed.

Lemma report_pass_calls_due_reporters_once_witness :
  let '(s', result, calls) :=
    Nerve.reportAndTellIfAtLeastOneReported ex_nerve_externals
      [2%nat; 1%nat] ex_nerve false in
  calls = [(2%nat, None)] /\
  result = false /\
  Nerve.typedReportersWithReported s' !! 1%nat = Some true /\
  Nerve.typedReportersWithReported s' !! 2%nat = Some false.
Proof.
  pose proof (report_pass_calls_due_reporters_once ex_nerve_externals
                [2%nat; 1%nat] ex_nerve false ex_nerve_visits) as H.
  cbv zeta in H.
  destruct (Nerve.reportAndTellIfAtLeastOneReported ex_nerve_externals
              [2%nat; 1%nat] ex_nerve false) as [[s' result] calls].
  cbn [Nerve.currentStatus Nerve.disabled ex_nerve] in H.
  destruct H as (Hcalls & _ & _ & Hflags & Hres).
  split; [exact Hcalls|]. split; [|split].
  - destruct result; [|reflexivity].
    destruct Hres as [Hres _]. destruct (Hres eq_refl) as (r & Hr & Hrep).
    apply filter_elem_of in Hr as [Hr Hd].
    apply elem_of_cons in Hr as [->|Hr]; [discriminate Hrep|].
    apply list_elem_of_singleton in Hr as ->.
    vm_compute in Hd. discriminate Hd.
  - rewrite Hflags. reflexivity.
  - rewrite Hflags. reflexivity.
Defined.

Lemma append_nonempty (a b : string) : a <> "" -> a +:+ b <> "".
Proof.
  destruct a as [|c a]; [congruence|]. intros _.
  change (String c (a +:+ b) <> ""). discriminate.
Qed.

Lemma load_range_spec {V : Type} (fromJson : string -> nat + error)
    (message : string) (v : V) (datas : list string) :
  forall m,
    let '(m', e) := Nerve.load_range fromJson message v datas m in
    (e = None <-> Forall (decodes fromJson) datas) /\
    (e = None ->
     (forall d k, d ∈ datas -> fromJson d = inl k -> m' !! k = Some v) /\
     (forall k w, m' !! k = Some w ->
        (w = v /\ exists d, d ∈ datas /\ fromJson d = inl k) \/
        m !! k = Some w) /\
     (forall k, is_Some (m !! k) -> is_Some (m' !! k))).
Proof.
  induction datas as [|data rest IH]; intros m; cbn [Nerve.load_range].
  - split; [split; [constructor|reflexivity]|]. intros _.
    split; [|split].
    + intros d k Hd. now apply elem_of_nil in Hd.
    + intros k w Hk. now right.
    + auto.
  - destruct (fromJson data) as [k0|err] eqn:Ed.
    + specialize (IH (<[k0 := v]> m)).
      destruct (Nerve.load_range fromJson message v rest (<[k0 := v]> m))
        as [m' e].
      destruct IH as [IHe IHm]. split.
      * rewrite IHe. split.
        -- intros H. constructor; [now exists k0|exact H].
        -- intros H. now inversion H.
      * intros He. destruct (IHm He) as (H1 & H2 & H3).
        split; [|split].
        -- intros d k Hd Hk. apply elem_of_cons in Hd as [->|Hd].
           ++ assert (k = k0) as -> by congruence.
              destruct (H3 k0) as [w Hw]; [rewrite lookup_insert_eq; eauto|].
              destruct (H2 k0 w Hw) as [[-> _]|Hw']; [exact Hw|].
              rewrite lookup_insert_eq in Hw'. congruence.
           ++ now apply (H1 d).
        -- intros k w Hk. destruct (H2 k w Hk) as [[-> (d & Hd & Hdk)]|Hw].
           ++ left. split; [reflexivity|]. exists d.
              split; [apply elem_of_cons; now right|exact Hdk].
           ++ destruct (decide (k = k0)) as [->|Hne].
              ** rewrite lookup_insert_eq in Hw. left.
                 split; [congruence|]. exists data.
                 split; [apply elem_of_cons; now left|exact Ed].
              ** rewrite lookup_insert_ne in Hw by congruence. now right.
        -- intros k Hk. apply H3. destruct (decide (k = k0)) as [->|Hne].
           ++ rewrite lookup_insert_eq. eauto.
           ++ now rewrite lookup_insert_ne by congruence.
    + split; [|discriminate]. split; [discriminate|].
      intros H. inversion H as [|? ? [k Hk] ?]; subst. congruence.
Qed.

Lemma Init_keeps_defaults (x : Nerve.Externals) (s : Nerve.Service) :
  Nerve.set_typedReportersWithReported
    (Nerve.set_typedCheckersWithStatus (fst (Nerve.Init x s)) ∅) ∅
  = Nerve.Init_defaults s.
Proof.
  unfold Nerve.Init.
  destruct (Nerve.load_range (Nerve.CheckerFromJson x) _ _ _ _) as [c [e|]];
    [reflexivity|].
  destruct (Nerve.load_range (Nerve.ReporterFromJson x) _ _ _ _) as [r [e|]];
    reflexivity.
Qed.

Lemma Init_defaults_all_set (s : Nerve.Service) :
  all_set (Nerve.Init_defaults s).
Proof.
  unfold all_set, Nerve.Init_defaults. cbn.
  assert (Hhost : (if String.eqb (Nerve.Host s) "" then "127.0.0.1"
                   else Nerve.Host s) <> "").
  { destruct (String.eqb_spec (Nerve.Host s) ""); [discriminate|assumption]. }
  split; [exact Hhost|]. split.
  { destruct (String.eqb_spec (Nerve.Name s) ""); [|assumption].
    now apply append_nonempty. }
  split; [destruct (Z.eqb_spec (Nerve.Weight s) 0); [discriminate|assumption]|].
  split; [destruct (Nerve.SetServiceAsDownOnShutdown s); discriminate|].
  repeat split;
    match goal with
    | |- (if ?a =? 0 then _ else _) <> 0 =>
        destruct (Z.eqb_spec a 0); [discriminate|assumption]
    end.
Qed.

Lemma loaded_nonempty {V : Type} (m : gmap nat V) (k : nat) :
  is_Some (m !! k) -> Nat.eqb (size m) 0 = false.
Proof.
  intros [w Hk]. apply Nat.eqb_neq. intros Hsize.
  apply map_size_empty_iff in Hsize. subst m.
  now rewrite lookup_empty in Hk.
Qed.

Lemma load_range_fill {V : Type} (fromJson : string -> nat + error)
    (message : string) (v : V) (datas : list string) (fresh : nat)
    (m' : gmap nat V) :
  Nerve.load_range fromJson message v datas ∅ = (m', None) ->
  let m := if Nat.eqb (size m') 0 then <[fresh := v]> m' else m' in
  m <> ∅ /\
  (forall k w, m !! k = Some w ->
     w = v /\ ((datas = [] /\ k = fresh) \/
               exists d, d ∈ datas /\ fromJson d = inl k)) /\
  (forall d k, d ∈ datas -> fromJson d = inl k -> is_Some (m !! k)).
Proof.
  intros E.
  pose proof (load_range_spec fromJson message v datas ∅) as H.
  rewrite E in H. destruct H as [_ H]. destruct (H eq_refl) as (H1 & H2 & _).
  destruct datas as [|d0 datas].
  - cbn in E. injection E as <-. cbn.
    split; [apply insert_non_empty|]. split.
    + intros k w Hk. apply lookup_insert_Some in Hk as [[<- <-]|[_ Hk]].
      * split; [reflexivity|]. now left.
      * now rewrite lookup_empty in Hk.
    + intros d k Hd. now apply elem_of_nil in Hd.
  - assert (Hd0 : exists k0, fromJson d0 = inl k0).
    { pose proof (load_range_spec fromJson message v (d0 :: datas) ∅) as H'.
      rewrite E in H'. destruct H' as [[H' _] _].
      specialize (H' eq_refl). now inversion H'. }
    destruct Hd0 as [k0 Hk0].
    assert (Hin : m' !! k0 = Some v)
      by (apply (H1 d0); [apply elem_of_cons; now left|exact Hk0]).
    rewrite (loaded_nonempty m' k0) by eauto. cbv zeta.
    split; [intros ->; now rewrite lookup_empty in Hin|]. split.
    + intros k w Hk. destruct (H2 k w Hk) as [[-> Hd]|Hk'].
      * split; [reflexivity|]. now right.
      * now rewrite lookup_empty in Hk'.
    + intros d k Hd Hdk. rewrite (H1 d k Hd Hdk). eauto.
Qed.

(** X21.  [Init] of the nerve service.  Whether it succeeds or not, no
    field with a default is left unset afterwards: host, name, weight (a
    weight of 0 becomes 255, another is kept), the shutdown flag and the six
    durations.  It succeeds exactly when every check and every reporter of
    the configuration is decoded.  Then the service has at least one checker
    and one reporter: those decoded, or the TCP check and the console
    reporter where the configuration names none; no checker has a status
    yet, and every reporter counts as reported. *)
Theorem Init_leaves_nothing_unset (x : Nerve.Externals) (s : Nerve.Service) :
  let '(s', e) := Nerve.Init x s in
  all_set s' /\
  Nerve.Weight s' = (if Nerve.Weight s =? 0 then 255 else Nerve.Weight s) /\
  (e = None <->
   Forall (decodes (Nerve.CheckerFromJson x)) (Nerve.Checks s) /\
   Forall (decodes (Nerve.ReporterFromJson x)) (Nerve.Reporters s)) /\
  (e = None ->
   Nerve.typedCheckersWithStatus s' <> ∅ /\
   Nerve.typedReportersWithReported s' <> ∅ /\
   (forall c status,
      Nerve.typedCheckersWithStatus s' !! c = Some status ->
      status = None /\
      ((Nerve.Checks s = [] /\ c = Nerve.NewCheckTcp x) \/
       exists d, d ∈ Nerve.Checks s /\ Nerve.CheckerFromJson x d = inl c)) /\
   (forall d c,
      d ∈ Nerve.Checks s -> Nerve.CheckerFromJson x d = inl c ->
      is_Some (Nerve.typedCheckersWithStatus s' !! c)) /\
   (forall r reported,
      Nerve.typedReportersWithReported s' !! r = Some reported ->
      reported = true /\
      ((Nerve.Reporters s = [] /\ r = Nerve.NewReporterConsole x) \/
       exists d, d ∈ Nerve.Reporters s /\ Nerve.ReporterFromJson x d = inl r)) /\
   (forall d r,
      d ∈ Nerve.Reporters s -> Nerve.ReporterFromJson x d = inl r ->
      is_Some (Nerve.typedReportersWithReported s' !! r))).
Proof.
  pose proof (Init_defaults_all_set s) as Hset.
  unfold Nerve.Init.
  change (Nerve.Checks (Nerve.Init_defaults s)) with (Nerve.Checks s).
  change (Nerve.typedCheckersWithStatus (Nerve.Init_defaults s))
    with (∅ : gmap Nerve.Checker (option (option error))).
  pose proof (load_range_spec (Nerve.CheckerFromJson x) "Failed to load check"
                (None : option (option error)) (Nerve.Checks s) ∅) as HC.
  destruct (Nerve.load_range (Nerve.CheckerFromJson x) _ _ _ _)
    as [checkers [ec|]] eqn:EC.
  { split; [exact Hset|]. split; [reflexivity|]. split; [|discriminate].
    split; [discriminate|]. intros [H _]. apply HC in H. discriminate. }
  cbv zeta.
  change (Nerve.Reporters (Nerve.set_typedCheckersWithStatus _ _))
    with (Nerve.Reporters s).
  change (Nerve.typedReportersWithReported
            (Nerve.set_typedCheckersWithStatus _ _))
    with (∅ : gmap Nerve.Reporter bool).
  pose proof (load_range_spec (Nerve.ReporterFromJson x)
                "Failed to load reporter" true (Nerve.Reporters s) ∅) as HR.
  destruct (Nerve.load_range (Nerve.ReporterFromJson x) _ _ _ _)
    as [reporters [er|]] eqn:ER.
  { split; [exact Hset|]. split; [reflexivity|]. split; [|discriminate].
    split; [discriminate|]. intros [_ H]. apply HR in H. discriminate. }
  split; [exact Hset|]. split; [reflexivity|]. split.
  { split; [|reflexivity]. intros _. split; [now apply HC|now apply HR]. }
  intros _.
  destruct (load_range_fill _ _ _ _ (Nerve.NewCheckTcp x) _ EC) as (C1 & C2 & C3).
  destruct (load_range_fill _ _ _ _ (Nerve.NewReporterConsole x) _ ER)
    as (R1 & R2 & R3).
  cbn [Nerve.typedCheckersWithStatus Nerve.typedReportersWithReported
       Nerve.set_typedCheckersWithStatus Nerve.set_typedReportersWithReported].
  repeat split; try assumption.
  - now apply (C2 c status).
  - now apply (C2 c status).
  - now apply (R2 r reported).
  - now apply (R2 r reported).
Qed.

Lemma Init_leaves_nothing_unset_witness :
  let '(s', e) := Nerve.Init ex_nerve_externals ex_nerve_conf in
  e = None /\ Nerve.Weight s' = 255 /\ Nerve.Name s' = "127.0.0.1:8080" /\
  Nerve.typedCheckersWithStatus s' !! 0%nat = Some None.
Proof.
  pose proof (Init_leaves_nothing_unset ex_nerve_externals ex_nerve_conf) as H.
  assert (HName : Nerve.Name (fst (Nerve.Init ex_nerve_externals ex_nerve_conf))
                  = "127.0.0.1:8080") by (vm_compute; reflexivity).
  destruct (Nerve.Init ex_nerve_externals ex_nerve_conf) as [s' e].
  destruct H as (_ & HWeight & Hiff & Hmaps).
  assert (He : e = None).
  { apply Hiff. split; [constructor|].
    constructor; [now exists 1%nat|constructor]. }
  destruct (Hmaps He) as (Hne & _ & Hkeys & _).
  split; [exact He|]. split; [exact HWeight|]. split; [exact HName|].
  apply map_choose in Hne as (c & status & Hc).
  destruct (Hkeys c status Hc) as [-> [[_ ->]|(d & Hd & _)]].
  - exact Hc.
  - now apply elem_of_nil in Hd.
Defined.
